(** * Instrument-control lesson: Keithley 2400 and 2614B voltage sweeps

    A shallow embedding of the setup and sweep helpers of the two
    instrument-control notebooks ([k2400_setup], [k2400_iv_sweep],
    [k2614B_setup], [k2614B_iv_sweep]).

    The Python builtins [str] and [float] and the PyVISA resource behind the
    global handles [keithley2400] / [keithley2614B] are interfaces (type
    classes); the helpers are written once against them, in a small
    state-and-exception monad that also records every call made on the
    resource.  A concrete instance (binary64 floats with CPython's [float]
    and [repr], and a resistor stub) is given afterwards. *)

From Stdlib Require Import String Ascii List ZArith Lia Bool.
From Stdlib Require Import Floats.SpecFloat.
Import ListNotations.

Local Open Scope list_scope.

(** ** Python values and exceptions *)

(** Failures of the instrument link, as the resource reports them. *)
Inductive conn_err := CommunicationError | TimeoutError.

(** The exceptions the helpers can raise: a failure of the resource,
    [float] on text that is not a number, and a list index out of range. *)
Inductive exn :=
| VisaIOError (e : conn_err)
| ValueError
| IndexError.

Inductive outcome (A : Type) :=
| Returned (a : A)
| Raised (e : exn).
Arguments Returned {A} a.
Arguments Raised {A} e.

Definition obind {A B} (o : outcome A) (k : A -> outcome B) : outcome B :=
  match o with
  | Returned a => k a
  | Raised e => Raised e
  end.

(** [s.split(sep)] for a one-character separator: every occurrence splits,
    empty fields are kept, and the result is never empty. *)
Fixpoint split (sep : ascii) (s : string) : list string :=
  match s with
  | EmptyString => [EmptyString]
  | String c rest =>
      if Ascii.eqb c sep then EmptyString :: split sep rest
      else match split sep rest with
           | [] => [String c EmptyString]
           | field :: fields => String c field :: fields
           end
  end.

(** [l[i]] for a non-negative index. *)
Definition getitem {A} (l : list A) (i : nat) : outcome A :=
  match nth_error l i with
  | Some x => Returned x
  | None => Raised IndexError
  end.

(** [[f(item) for item in l]]: left to right, stopping at the first
    exception. *)
Fixpoint comprehension {A B} (f : A -> outcome B) (l : list A) : outcome (list B) :=
  match l with
  | [] => Returned []
  | item :: rest =>
      obind (f item) (fun y =>
      obind (comprehension f rest) (fun ys => Returned (y :: ys)))
  end.

(** ** Interfaces *)

(** The builtins the helpers call: [str] on the objects handed to them and
    [float] on response text ([None] stands for [ValueError]). *)
Class Builtins := {
  value : Type;
  num : Type;
  str : value -> string;
  float : string -> option num
}.

(** A PyVISA resource: [write] and [query] ([ask] is the older name of
    [query]) act on the instrument state and may fail. *)
Class Resource := {
  St : Type;
  visa_write : string -> St -> option conn_err * St;
  visa_query : string -> St -> (conn_err + string) * St
}.

(** One call on the resource together with what came back. *)
Inductive event :=
| Write (cmd : string) (res : option conn_err)
| Query (cmd : string) (res : conn_err + string).

Definition command (ev : event) : string :=
  match ev with
  | Write cmd _ => cmd
  | Query cmd _ => cmd
  end.

Definition is_query (ev : event) : bool :=
  match ev with
  | Query _ _ => true
  | Write _ _ => false
  end.

Definition is_write (ev : event) : bool := negb (is_query ev).

(** ** The monad of the helpers *)

Section Helpers.
Context {B : Builtins} {R : Resource}.

(** What a helper sees and changes: the instrument behind the global
    handle and the list bound to the local [currents]. *)
Record frame := { instr : St; currents : list num }.

Record run (A : Type) := {
  out : outcome A;
  issued : list event;
  final : frame
}.
Arguments out {A} r.
Arguments issued {A} r.
Arguments final {A} r.

Definition M (A : Type) := frame -> run A.

Definition ret {A} (a : A) : M A :=
  fun f => {| out := Returned a; issued := []; final := f |}.

Definition raise {A} (e : exn) : M A :=
  fun f => {| out := Raised e; issued := []; final := f |}.

Definition bind {A C} (c : M A) (k : A -> M C) : M C :=
  fun f =>
    let r := c f in
    match out r with
    | Returned a =>
        let r' := k a (final r) in
        {| out := out r'; issued := issued r ++ issued r'; final := final r' |}
    | Raised e => {| out := Raised e; issued := issued r; final := final r |}
    end.

Definition lift {A} (o : outcome A) : M A :=
  match o with
  | Returned a => ret a
  | Raised e => raise e
  end.

(** [handle.write(cmd)] *)
Definition write (cmd : string) : M unit :=
  fun f =>
    let (res, st) := visa_write cmd (instr f) in
    {| out := match res with
              | None => Returned tt
              | Some e => Raised (VisaIOError e)
              end;
       issued := [Write cmd res];
       final := {| instr := st; currents := currents f |} |}.

(** [handle.query(cmd)] / [handle.ask(cmd)] *)
Definition query (cmd : string) : M string :=
  fun f =>
    let (res, st) := visa_query cmd (instr f) in
    {| out := match res with
              | inr reply => Returned reply
              | inl e => Raised (VisaIOError e)
              end;
       issued := [Query cmd res];
       final := {| instr := st; currents := currents f |} |}.

(** [currents = l] *)
Definition assign_currents (l : list num) : M unit :=
  fun f => {| out := Returned tt; issued := [];
              final := {| instr := instr f; currents := l |} |}.

(** [currents.append(x)] *)
Definition currents_append (x : num) : M unit :=
  fun f => {| out := Returned tt; issued := [];
              final := {| instr := instr f; currents := currents f ++ [x] |} |}.

(** reading the local [currents] *)
Definition get_currents : M (list num) :=
  fun f => {| out := Returned (currents f); issued := []; final := f |}.

(** [for x in xs: body] *)
Fixpoint for_each {A} (xs : list A) (body : A -> M unit) : M unit :=
  match xs with
  | [] => ret tt
  | x :: rest => bind (body x) (fun _ => for_each rest body)
  end.

(** [float(s)] as the helpers use it. *)
Definition py_float (s : string) : outcome num :=
  match float s with
  | Some x => Returned x
  | None => Raised ValueError
  end.

End Helpers.

Arguments out {B R A} r.
Arguments issued {B R A} r.
Arguments final {B R A} r.

Declare Scope py_scope.
Delimit Scope py_scope with py.
Notation "x <- c ;; k" := (bind c (fun x => k))
  (at level 61, c at next level, right associativity) : py_scope.
Notation "c ;; k" := (bind c (fun _ => k))
  (at level 61, right associativity) : py_scope.
Notation "a +s b" := (String.append a b)
  (at level 50, left associativity) : py_scope.

Local Open Scope py_scope.
Local Open Scope string_scope.
Local Open Scope list_scope.

(** ** Lesson 5, Keithley 2400 *)

Section K2400.
Context {B : Builtins} {R : Resource}.

Definition k2400_setup (func : string) (v_range i_range delay : value) : M unit :=
  write "OUTP OFF" ;;
  write ":SOUR:CLE:AUTO OFF" ;;
  write (":SOUR:FUNC " +s func) ;;
  write (":SOUR:VOLT:RANG " +s str v_range) ;;
  write (":SOUR:CURR:RANG " +s str i_range) ;;
  write (":SOUR:DEL " +s str delay).

(** The three statements that turn a response into the value appended:
    [data.split(',')], the list comprehension of [float], and [data[1]]. *)
Definition k2400_reading (data : string) : outcome num :=
  let data := split "," data in
  obind (comprehension py_float data) (fun data =>
  getitem data 1).

Definition k2400_body (voltage : value) : M unit :=
  write (":SOUR:VOLT " +s str voltage) ;;
  data <- query ":MEAS:CURR?" ;;
  item <- lift (k2400_reading data) ;;
  currents_append item.

Definition k2400_iv_sweep (v_sweep : list value) : M (list num) :=
  assign_currents [] ;;
  for_each v_sweep k2400_body ;;
  write "OUTP OFF" ;;
  get_currents.

End K2400.

(** ** Keithley 2614B *)

Section K2614B.
Context {B : Builtins} {R : Resource}.

Definition k2614B_setup (sfunc mfunc : string) (v_range i_range delay : value) : M unit :=
  write "smua.source.output = smua.OUTPUT_OFF" ;;
  write ("smua.source.func = smua.OUTPUT_" +s sfunc) ;;
  write "display.smua.measure.func = display.MEASURE_DCAMPS" ;;
  write ("smua.measure.rangev = " +s str v_range) ;;
  write ("smua.measure.rangei = " +s str i_range) ;;
  write ("smua.measure.delay = " +s str delay).

Definition k2614B_reading (data : string) : outcome num := py_float data.

Definition k2614B_body (voltage : value) : M unit :=
  write ("smua.source.levelv = " +s str voltage) ;;
  data <- query "print(smua.measure.i())" ;;
  item <- lift (k2614B_reading data) ;;
  currents_append item.

Definition k2614B_iv_sweep (v_sweep : list value) : M (list num) :=
  write "smua.source.output = smua.OUTPUT_ON" ;;
  assign_currents [] ;;
  for_each v_sweep k2614B_body ;;
  write "smua.source.output = smua.OUTPUT_OFF" ;;
  get_currents.

End K2614B.

(** ** CPython's numbers: binary64, [float(text)] and [str(x)] *)

Module CPython.

Definition prec : Z := 53.
Definition emax : Z := 1024.

(** The objects the lessons pass to [str]: integers and floats. *)
Inductive object :=
| PyInt (n : Z)
| PyFloat (x : spec_float).

(** *** Text to float *)

Definition code (c : ascii) : Z := Z.of_nat (nat_of_ascii c).

(** Whitespace that [float] strips on both sides: the space and the
    controls tab, line feed, vertical tab, form feed and carriage return.
    The separators 28 to 31, which [str.strip] removes, are not stripped by
    [float]. *)
Definition is_space (c : ascii) : bool :=
  let n := code c in
  ((9 <=? n) && (n <=? 13) || (n =? 32))%Z.

(** Characters are code points 0 to 255.  Before parsing, [float] turns
    the spaces beyond ASCII, next line (133) and no-break space (160),
    into plain spaces; any other character beyond ASCII is left to fail
    the parse. *)
Definition space_to_ascii (c : ascii) : ascii :=
  let n := code c in
  if ((n =? 133) || (n =? 160))%Z then " "%char else c.

Fixpoint spaces_to_ascii (s : string) : string :=
  match s with
  | String c rest => String (space_to_ascii c) (spaces_to_ascii rest)
  | EmptyString => EmptyString
  end.

Definition digit_of (c : ascii) : option Z :=
  let n := code c in
  if ((48 <=? n) && (n <=? 57))%Z then Some (n - 48)%Z else None.

Definition lower (c : ascii) : ascii :=
  let n := code c in
  if ((65 <=? n) && (n <=? 90))%Z then ascii_of_nat (Z.to_nat (n + 32)) else c.

Fixpoint lstrip (s : string) : string :=
  match s with
  | String c rest => if is_space c then lstrip rest else s
  | EmptyString => s
  end.

Fixpoint reverse (s acc : string) : string :=
  match s with
  | String c rest => reverse rest (String c acc)
  | EmptyString => acc
  end.

Definition strip (s : string) : string :=
  reverse (lstrip (reverse (lstrip s) EmptyString)) EmptyString.

Fixpoint lowercase (s : string) : string :=
  match s with
  | String c rest => String (lower c) (lowercase rest)
  | EmptyString => EmptyString
  end.

(** Reads a run of decimal digits onto [acc]; returns the number read so
    far, how many digits were consumed, and the rest of the text. *)
Fixpoint digits (s : string) (acc count : Z) : Z * Z * string :=
  match s with
  | String c rest =>
      match digit_of c with
      | Some d => digits rest (10 * acc + d)%Z (count + 1)%Z
      | None => (acc, count, s)
      end
  | EmptyString => (acc, count, s)
  end.

Definition sign_of (s : string) : bool * string :=
  match s with
  | String "-" rest => (true, rest)
  | String "+" rest => (false, rest)
  | _ => (false, s)
  end.

(** The exponent part [e[+-]ddd], when there is one. *)
Definition exponent (s : string) : option (Z * string) :=
  match s with
  | String c rest =>
      if Ascii.eqb (lower c) "e" then
        let (neg, rest) := sign_of rest in
        let '(n, count, rest) := digits rest 0%Z 0%Z in
        if (count =? 0)%Z then None
        else Some (if neg then (- n)%Z else n, rest)
      else Some (0%Z, s)
  | EmptyString => Some (0%Z, s)
  end.

(** The binary64 nearest to [m * 10^e] (ties to even), for [0 <= m]. *)
Definition of_decimal (neg : bool) (m e : Z) : spec_float :=
  if (m =? 0)%Z then S754_zero neg
  else if (0 <=? e)%Z then
    if (400 <? e)%Z then S754_infinity neg
    else match (m * 10 ^ e)%Z with
         | Zpos p => binary_round prec emax neg p 0
         | _ => S754_nan
         end
  else if (e <? -401 - Z.log2 m)%Z then S754_zero neg
  else
    let '(q, e', loc) := SFdiv_core_binary prec emax m 0 (10 ^ (- e))%Z 0 in
    binary_round_aux prec emax neg q e' loc.

(** [float(text)] of Python 3.5, the notebooks' kernel: surrounding
    whitespace, a sign, then [inf], [infinity], [nan] in any case or a
    decimal literal with an optional exponent; no underscores between
    digits.  [None] is [ValueError]. *)
Definition float_of_string (text : string) : option spec_float :=
  let (neg, body) := sign_of (strip (spaces_to_ascii text)) in
  let word := lowercase body in
  if (String.eqb word "inf" || String.eqb word "infinity")%bool
  then Some (S754_infinity neg)
  else if String.eqb word "nan" then Some S754_nan
  else
    let '(ip, ni, rest) := digits body 0%Z 0%Z in
    let '(m, nf, rest) :=
      match rest with
      | String "." rest' => digits rest' ip 0%Z
      | _ => (ip, 0%Z, rest)
      end in
    if (ni + nf =? 0)%Z then None
    else match exponent rest with
         | Some (e, EmptyString) => Some (of_decimal neg m (e - nf)%Z)
         | _ => None
         end.

(** *** Float to text *)

Fixpoint zeros (n : nat) : string :=
  match n with
  | O => EmptyString
  | S n' => String "0" (zeros n')
  end.

Definition digit_char (d : Z) : ascii := ascii_of_nat (Z.to_nat (48 + d)).

(** Decimal digits of [n >= 0], most significant first. *)
Fixpoint decimal_aux (fuel : nat) (n : Z) (acc : string) : string :=
  match fuel with
  | O => acc
  | S fuel' =>
      let acc := String (digit_char (n mod 10)) acc in
      if (n <? 10)%Z then acc else decimal_aux fuel' (n / 10)%Z acc
  end.

Definition decimal (n : Z) : string :=
  decimal_aux (S (Z.to_nat (Z.log2 n))) n EmptyString.

(** [str(n)] for an integer. *)
Definition int_str (n : Z) : string :=
  if (n <? 0)%Z then String "-" (decimal (- n)) else decimal n.

Fixpoint strip_zeros (fuel : nat) (n : Z) : Z :=
  match fuel with
  | O => n
  | S fuel' => if ((n mod 10 =? 0) && (0 <? n))%Z then strip_zeros fuel' (n / 10)%Z else n
  end.

(** Is [num/den < 10^n]? *)
Definition below_pow10 (num den n : Z) : bool :=
  if (0 <=? n)%Z then (num <? den * 10 ^ n)%Z else (num * 10 ^ (- n) <? den)%Z.

(** The least [n] from [start] on with [num/den < 10^n].  [float_repr]
    starts just below the estimate [(bits - 1) * log10 2] of the decimal
    exponent, taking 0.30103 for [log10 2]. *)
Fixpoint decimal_point (fuel : nat) (start num den : Z) : Z :=
  match fuel with
  | O => start
  | S fuel' =>
      if below_pow10 num den start then start
      else decimal_point fuel' (start + 1)%Z num den
  end.

(** The shortest decimal [d * 10^e] that [float] reads back as the
    positive float [m * 2^ex], nearest first: for each number of
    significant digits, the decimal just below and the one just above. *)
Fixpoint shortest (fuel : nat) (p : Z) (m : positive) (ex : Z)
         (num den point : Z) : Z * Z :=
  let e := (point - p)%Z in
  let '(n, d) := if (0 <=? e)%Z then (num, den * 10 ^ e)%Z
                 else (num * 10 ^ (- e), den)%Z in
  let lo := (n / d)%Z in
  let r := (n mod d)%Z in
  let back c := match of_decimal false c e with
                | S754_finite false m' ex' => (Pos.eqb m m' && Z.eqb ex ex')%bool
                | _ => false
                end in
  let up_first := ((d <? 2 * r) || ((d =? 2 * r) && Z.odd lo))%Z%bool in
  let first := if up_first then (lo + 1)%Z else lo in
  let second := if up_first then lo else (lo + 1)%Z in
  match fuel with
  | O => (first, e)
  | S fuel' =>
      if back first then (first, e)
      else if back second then (second, e)
      else shortest fuel' (p + 1)%Z m ex num den point
  end.

Definition substring_from (n : nat) (s : string) : string :=
  String.substring n (String.length s - n) s.

(** [repr] of a finite positive float from its shortest digits [ds] and
    the position [point] of the decimal point: fixed notation for
    [-4 < point <= 16], exponent notation otherwise. *)
Definition layout (ds : string) (point : Z) : string :=
  let nd := Z.of_nat (String.length ds) in
  if ((-4 <? point) && (point <=? 16))%Z then
    if (point <=? 0)%Z then "0." +s zeros (Z.to_nat (- point)) +s ds
    else if (nd <=? point)%Z then ds +s zeros (Z.to_nat (point - nd)) +s ".0"
    else String.substring 0 (Z.to_nat point) ds +s "." +s substring_from (Z.to_nat point) ds
  else
    let x := (point - 1)%Z in
    let xs := decimal (Z.abs x) in
    String.substring 0 1 ds
    +s (if (1 <? nd)%Z then "." +s substring_from 1 ds else "")
    +s "e" +s (if (x <? 0)%Z then "-" else "+")
    +s (if (Z.abs x <? 10)%Z then "0" +s xs else xs).

(** [repr(x)], which is also [str(x)] in Python 3. *)
Definition float_repr (x : spec_float) : string :=
  match x with
  | S754_nan => "nan"
  | S754_infinity neg => if neg then "-inf" else "inf"
  | S754_zero neg => if neg then "-0.0" else "0.0"
  | S754_finite neg m ex =>
      let '(num, den) := if (0 <=? ex)%Z then (Zpos m * 2 ^ ex, 1)%Z
                         else (Zpos m, 2 ^ (- ex))%Z in
      let bits := (Zpos (digits2_pos m) + ex)%Z in
      let point := decimal_point 8 ((bits - 1) * 30103 / 100000 - 1)%Z num den in
      let '(d, e) := shortest 16 1%Z m ex num den point in
      let all := decimal d in
      let ds := decimal (strip_zeros 20 d) in
      (if neg then "-" else "") +s layout ds (e + Z.of_nat (String.length all))
  end.

Definition object_str (v : object) : string :=
  match v with
  | PyInt n => int_str n
  | PyFloat x => float_repr x
  end.

#[export] Instance builtins : Builtins := {
  value := object;
  num := spec_float;
  str := object_str;
  float := float_of_string
}.

(** [x / y] on floats. *)
Definition truediv (x y : spec_float) : spec_float := SFdiv prec emax x y.

End CPython.

(** ** Resources for concrete runs *)

Module Resistor.
Import CPython.

Definition strip_prefix (p s : string) : option string :=
  if String.prefix p s
  then Some (String.substring (String.length p) (String.length s - String.length p) s)
  else None.

(** The source level a command sets, when it is a source-level command
    of either instrument. *)
Definition level_of (cmd : string) : option spec_float :=
  match strip_prefix ":SOUR:VOLT " cmd with
  | Some text => float_of_string text
  | None =>
      match strip_prefix "smua.source.levelv = " cmd with
      | Some text => float_of_string text
      | None => None
      end
  end.

Definition ohms : spec_float := binary_normalize prec emax 1000 0 false.

(** Modelled from the spec: the connection stub of the example scenario, a
    simulated 1 kilo-ohm resistor.  Its state is the source level last
    written; no call fails; a measurement query answers with the current
    [level / 1000], as the bare number for the 2614B and as the second of
    the five comma-separated fields (voltage, current, resistance, time,
    status) for the 2400. *)
Definition stub_write (cmd : string) (level : spec_float) : option conn_err * spec_float :=
  match level_of cmd with
  | Some x => (None, x)
  | None => (None, level)
  end.

Definition stub_query (cmd : string) (level : spec_float) : (conn_err + string) * spec_float :=
  let current := float_repr (truediv level ohms) in
  if String.eqb cmd ":MEAS:CURR?"
  then (inr (float_repr level +s "," +s current +s ",9.91e+37,0.0,0.0"), level)
  else if String.eqb cmd "print(smua.measure.i())"
  then (inr current, level)
  else (inr "", level).

Definition resource : Resource := {|
  St := spec_float;
  visa_write := stub_write;
  visa_query := stub_query
|}.

Definition start : @frame builtins resource :=
  @Build_frame builtins resource (S754_zero false) [].

End Resistor.

Module Scripted.

(** A resource that plays back a script, one entry per call: [inl e] makes
    the call fail with [e], [inr text] lets a write pass and is the reply
    to a query.  Past the end of the script every call passes and replies
    are empty. *)
Definition script := list (conn_err + string).

Definition play_write (cmd : string) (s : script) : option conn_err * script :=
  match s with
  | inl e :: rest => (Some e, rest)
  | inr _ :: rest => (None, rest)
  | [] => (None, [])
  end.

Definition play_query (cmd : string) (s : script) : (conn_err + string) * script :=
  match s with
  | entry :: rest => (entry, rest)
  | [] => (inr "", [])
  end.

Definition resource : Resource := {|
  St := script;
  visa_write := play_write;
  visa_query := play_query
|}.

Definition start (s : script) : @frame CPython.builtins resource :=
  @Build_frame CPython.builtins resource s [].

End Scripted.

(** ** Vocabulary of the specification *)

(** The two instruments; the tables below repeat the command texts of the
    helpers so that statements can speak about both sweeps at once. *)
Inductive model := K2400 | K2614B.

Section Vocabulary.
Context {B : Builtins} {R : Resource}.

Definition iv_sweep (i : model) : list value -> M (list num) :=
  match i with
  | K2400 => k2400_iv_sweep
  | K2614B => k2614B_iv_sweep
  end.

Definition body (i : model) : value -> M unit :=
  match i with
  | K2400 => k2400_body
  | K2614B => k2614B_body
  end.

Definition reading (i : model) : string -> outcome num :=
  match i with
  | K2400 => k2400_reading
  | K2614B => k2614B_reading
  end.

Definition level_prefix (i : model) : string :=
  match i with
  | K2400 => ":SOUR:VOLT "
  | K2614B => "smua.source.levelv = "
  end.

Definition level_cmd (i : model) (v : value) : string := level_prefix i +s str v.

Definition query_cmd (i : model) : string :=
  match i with
  | K2400 => ":MEAS:CURR?"
  | K2614B => "print(smua.measure.i())"
  end.

Definition off_cmd (i : model) : string :=
  match i with
  | K2400 => "OUTP OFF"
  | K2614B => "smua.source.output = smua.OUTPUT_OFF"
  end.

(** The command that enables output before the loop, where the sweep has
    one. *)
Definition on_cmd (i : model) : option string :=
  match i with
  | K2400 => None
  | K2614B => Some "smua.source.output = smua.OUTPUT_ON"
  end.

(** The calls before the loop when none fails. *)
Definition prologue (i : model) : list event :=
  match on_cmd i with
  | Some cmd => [Write cmd None]
  | None => []
  end.

(** The calls of one completed step: the source-level write, then the
    measurement query and its reply. *)
Definition step (i : model) (vr : value * string) : list event :=
  [Write (level_cmd i (fst vr)) None; Query (query_cmd i) (inr (snd vr))].

Definition steps (i : model) (vs : list value) (replies : list string) : list event :=
  flat_map (step i) (combine vs replies).

(** A call that came back without failing and, for a query, with a reply
    from which the sweep gets its number. *)
Definition succeeded (i : model) (ev : event) : bool :=
  match ev with
  | Write _ None => true
  | Write _ (Some _) => false
  | Query _ (inl _) => false
  | Query _ (inr reply) =>
      match reading i reply with
      | Returned _ => true
      | Raised _ => false
      end
  end.

(** A write or query on which the resource raised. *)
Definition failed_call (ev : event) : bool :=
  match ev with
  | Write _ (Some _) => true
  | Query _ (inl _) => true
  | _ => false
  end.

(** A call made inside the loop: a source-level write or a query. *)
Definition in_loop (i : model) (ev : event) : bool :=
  match ev with
  | Write cmd _ => String.prefix (level_prefix i) cmd
  | Query _ _ => true
  end.

(** The replies received, in order. *)
Fixpoint replies (evs : list event) : list string :=
  match evs with
  | [] => []
  | Query _ (inr reply) :: rest => reply :: replies rest
  | _ :: rest => replies rest
  end.

(** The source-level commands written, in order. *)
Definition levels_written (i : model) (evs : list event) : list string :=
  filter (String.prefix (level_prefix i)) (map command (filter is_write evs)).

(** [reads i reply x]: the sweep gets [x] out of [reply]. *)
Definition reads (i : model) (reply : string) (x : num) : Prop :=
  reading i reply = Returned x.

(** [parsed_from i reply x]: [x] is the value parsed from [reply], in
    terms of the builtins alone.  For the 2614B, [float] of the whole
    reply; for the 2400, the reply is split on commas, [float] converts
    every field, and [x] is the converted field at index 1. *)
Definition parsed_from (i : model) (reply : string) (x : num) : Prop :=
  match i with
  | K2400 =>
      exists ys, Forall2 (fun field y => float field = Some y) (split "," reply) ys /\
                 nth_error ys 1 = Some x
  | K2614B => float reply = Some x
  end.

(** A response that is not convertible to the numeric form the sweep
    expects: [float] raises on the response of the 2614B, or on one of
    the comma-separated fields of the response of the 2400. *)
Definition not_numeric (i : model) (reply : string) : Prop :=
  match i with
  | K2400 => Exists (fun field => float field = None) (split "," reply)
  | K2614B => float reply = None
  end.

(** The sequence the specification describes for a sweep: some command
    that enables output, then for each set-point its write and its query,
    then the command that disables output. *)
Definition enable_sweep_disable (i : model) (vs : list value) (evs : list event) : Prop :=
  exists (enable : string) (rs : list string),
    length rs = length vs /\
    evs = Write enable None :: steps i vs rs ++ [Write (off_cmd i) None].

(** What the loop of a sweep can do on set-points [vs]: the calls it
    makes, the values it appends to [currents], and how it ends. *)
Inductive loop_trace (i : model) : list value -> list event -> list num -> outcome unit -> Prop :=
| lt_done :
    loop_trace i [] [] [] (Returned tt)
| lt_step v vs reply x evs xs o :
    reads i reply x ->
    loop_trace i vs evs xs o ->
    loop_trace i (v :: vs)
      (Write (level_cmd i v) None :: Query (query_cmd i) (inr reply) :: evs)
      (x :: xs) o
| lt_write_fails v vs e :
    loop_trace i (v :: vs) [Write (level_cmd i v) (Some e)] [] (Raised (VisaIOError e))
| lt_query_fails v vs e :
    loop_trace i (v :: vs)
      [Write (level_cmd i v) None; Query (query_cmd i) (inl e)] [] (Raised (VisaIOError e))
| lt_reading_fails v vs reply e :
    reading i reply = Raised e ->
    loop_trace i (v :: vs)
      [Write (level_cmd i v) None; Query (query_cmd i) (inr reply)] [] (Raised e).

(** What a whole sweep can do: stop at the enabling write, stop inside
    the loop, or complete the loop and write the disabling command.  The
    list is what [currents] holds when the sweep ends (when the enabling
    write fails the local is not yet assigned). *)
Inductive sweep_trace (i : model) (vs : list value) : list event -> list num -> outcome (list num) -> Prop :=
| sw_enable_fails cmd e xs :
    on_cmd i = Some cmd ->
    sweep_trace i vs [Write cmd (Some e)] xs (Raised (VisaIOError e))
| sw_loop_fails evs xs e :
    loop_trace i vs evs xs (Raised e) ->
    sweep_trace i vs (prologue i ++ evs) xs (Raised e)
| sw_completes evs xs res :
    loop_trace i vs evs xs (Returned tt) ->
    sweep_trace i vs (prologue i ++ evs ++ [Write (off_cmd i) res]) xs
      match res with
      | None => Returned xs
      | Some e => Raised (VisaIOError e)
      end.

End Vocabulary.

(** ** The measurement cells and their vocabulary *)

Section Cells.
Context {B : Builtins} {R : Resource}.

(** The measurement cell of Lesson 5, after its settings: the setup, then
    [currents = k2400_iv_sweep(v_sweep)].  The settings are the parameters;
    the plotting calls that follow are left out. *)
Definition k2400_cell (func : string) (v_range i_range delay : value)
           (v_sweep : list value) : M (list num) :=
  k2400_setup func v_range i_range delay ;;
  k2400_iv_sweep v_sweep.

(** The measurement cell of the 2614B notebook, likewise. *)
Definition k2614B_cell (sfunc mfunc : string) (v_range i_range delay : value)
           (v_sweep : list value) : M (list num) :=
  k2614B_setup sfunc mfunc v_range i_range delay ;;
  k2614B_iv_sweep v_sweep.

(** The command texts of the two setups, in the order they are written. *)
Definition k2400_setup_cmds (func : string) (v_range i_range delay : value) : list string :=
  ["OUTP OFF";
   ":SOUR:CLE:AUTO OFF";
   ":SOUR:FUNC " +s func;
   ":SOUR:VOLT:RANG " +s str v_range;
   ":SOUR:CURR:RANG " +s str i_range;
   ":SOUR:DEL " +s str delay].

Definition k2614B_setup_cmds (sfunc : string) (v_range i_range delay : value) : list string :=
  ["smua.source.output = smua.OUTPUT_OFF";
   "smua.source.func = smua.OUTPUT_" +s sfunc;
   "display.smua.measure.func = display.MEASURE_DCAMPS";
   "smua.measure.rangev = " +s str v_range;
   "smua.measure.rangei = " +s str i_range;
   "smua.measure.delay = " +s str delay].

(** Writes that passed. *)
Definition passed (cmds : list string) : list event :=
  map (fun cmd => Write cmd None) cmds.

(** A run of writes that stops at the first one that fails: the first [k]
    commands passed, the next one came back with [res], and nothing was
    issued after it. *)
Definition stops_after (cmds : list string) (k : nat) (res : option conn_err)
           (evs : list event) : Prop :=
  k < length cmds /\
  evs = passed (firstn k cmds) ++ [Write (nth k cmds "") res] /\
  (res = None -> S k = length cmds).

(** A sweep from its loop on: the loop, the disabling write and the
    return. *)
Definition rest_of_sweep (i : model) (vs : list value) : M (list num) :=
  for_each vs (body i) ;;
  write (off_cmd i) ;;
  get_currents.

(** The calls of a step on set-point [v] that did not complete: the
    source-level write failed; or it passed and the query failed; or the
    query was answered with a reply from which no value can be parsed. *)
Definition unfinished_step (i : model) (v : value) (tail : list event) : Prop :=
  (exists ce, tail = [Write (level_cmd i v) (Some ce)]) \/
  (exists ce, tail = [Write (level_cmd i v) None; Query (query_cmd i) (inl ce)]) \/
  (exists reply,
      (forall x, ~ parsed_from i reply x) /\
      tail = [Write (level_cmd i v) None; Query (query_cmd i) (inr reply)]).

(** [blames i ev e]: the call [ev] is where the exception [e] of a sweep
    comes from: a write or query on which the resource raised [e], or a
    reply on which the reading raised [e]. *)
Definition blames (i : model) (ev : event) (e : exn) : Prop :=
  match ev with
  | Write _ (Some ce) => e = VisaIOError ce
  | Write _ None => False
  | Query _ (inl ce) => e = VisaIOError ce
  | Query _ (inr reply) => reading i reply = Raised e
  end.

End Cells.

(** Does the text contain the character? *)
Fixpoint has_char (c : ascii) (s : string) : bool :=
  match s with
  | EmptyString => false
  | String c' rest => Ascii.eqb c' c || has_char c rest
  end.

(** How many times the character occurs in the text. *)
Fixpoint count_char (c : ascii) (s : string) : nat :=
  match s with
  | EmptyString => 0
  | String c' rest => (if Ascii.eqb c' c then 1 else 0) + count_char c rest
  end.

(** ** The example scenario *)

Module Scenario.
Import CPython.

(** The float a decimal literal of the lesson denotes. *)
Definition literal (text : string) : spec_float :=
  match float_of_string text with
  | Some x => x
  | None => S754_nan
  end.

Definition func : string := "VOLT".
Definition v_range : object := PyInt 2.
Definition i_range : object := PyFloat (literal "0.1").
Definition delay : object := PyInt 0.

Definition v_sweep : list object :=
  map (fun text => PyFloat (literal text)) ["-1.0"; "-0.5"; "0.0"; "0.5"; "1.0"].

Definition expected : list spec_float :=
  map literal ["-0.001"; "-0.0005"; "0.0"; "0.0005"; "0.001"].

(** Does [cmd] contain [text]? *)
Definition mentions (text cmd : string) : bool :=
  match String.index 0 text cmd with
  | Some _ => true
  | None => false
  end.

(** Scripted runs on the set-points -1.0 and -0.5: the second response
    is not a number; the second query times out; the second response
    has a single field. *)
Definition two_points : list object :=
  [PyFloat (literal "-1.0"); PyFloat (literal "-0.5")].

Definition bad_2400 : Scripted.script :=
  [inr ""; inr "-1.0,-0.001"; inr ""; inr "-0.5,overflow"].

Definition bad_2614B : Scripted.script :=
  [inr ""; inr ""; inr "-0.001"; inr ""; inr "overflow"].

Definition timeout_2400 : Scripted.script :=
  [inr ""; inr "-1.0,-0.001"; inr ""; inl TimeoutError].

Definition short_2400 : Scripted.script :=
  [inr ""; inr "-1.0,-0.001"; inr ""; inr "-0.0005"].

End Scenario.

(** Scripted runs that fail outside the loop's readings, on the set-points
    -1.0 and -0.5: the disabling write fails after both readings; the
    enabling write fails; a 2614B is answered with a 2400-style
    response. *)
Module Failures.

Definition off_fails_2400 : Scripted.script :=
  [inr ""; inr "-1.0,-0.001"; inr ""; inr "-0.5,-0.0005"; inl CommunicationError].

Definition on_fails_2614B : Scripted.script :=
  [inl TimeoutError].

Definition mixed_2614B : Scripted.script :=
  [inr ""; inr ""; inr "-1.0,-0.001,9.91e+37,0.0,0.0"].

End Failures.

(** * Properties *)

Section MonadFacts.
Context {B : Builtins} {R : Resource}.

Lemma bind_returned {A C} (c : M A) (k : A -> M C) f a :
  out (c f) = Returned a ->
  out (bind c k f) = out (k a (final (c f))) /\
  issued (bind c k f) = issued (c f) ++ issued (k a (final (c f))) /\
  final (bind c k f) = final (k a (final (c f))).
Proof. intros H. unfold bind. rewrite H. simpl. auto. Qed.

Lemma bind_raised {A C} (c : M A) (k : A -> M C) f e :
  out (c f) = Raised e ->
  out (bind c k f) = Raised e /\
  issued (bind c k f) = issued (c f) /\
  final (bind c k f) = final (c f).
Proof. intros H. unfold bind. rewrite H. simpl. auto. Qed.

Lemma write_run cmd f :
  exists res st,
    visa_write cmd (instr f) = (res, st) /\
    issued (write cmd f) = [Write cmd res] /\
    final (write cmd f) = {| instr := st; currents := currents f |} /\
    out (write cmd f) = match res with
                        | None => Returned tt
                        | Some e => Raised (VisaIOError e)
                        end.
Proof.
  unfold write. destruct (visa_write cmd (instr f)) as [res st].
  exists res, st. simpl. auto.
Qed.

Lemma query_run cmd f :
  exists res st,
    visa_query cmd (instr f) = (res, st) /\
    issued (query cmd f) = [Query cmd res] /\
    final (query cmd f) = {| instr := st; currents := currents f |} /\
    out (query cmd f) = match res with
                        | inr reply => Returned reply
                        | inl e => Raised (VisaIOError e)
                        end.
Proof.
  unfold query. destruct (visa_query cmd (instr f)) as [res st].
  exists res, st. simpl. auto.
Qed.

End MonadFacts.

Section LoopFacts.
Context {B : Builtins} {R : Resource}.

(** The tail of both loop bodies: the number read from the reply is
    appended, or the exception of the reading is raised. *)
Lemma append_reading_run (o : outcome num) f :
  let r := bind (lift o) currents_append f in
  issued r = [] /\
  match o with
  | Returned x => out r = Returned tt /\ final r = {| instr := instr f; currents := currents f ++ [x] |}
  | Raised e => out r = Raised e /\ final r = f
  end.
Proof. destruct o; simpl; auto. Qed.

(** One pass through the body of the loop: either the step completes
    and one value is appended, or the loop stops there. *)
Lemma body_run i v f :
  let r := body i v f in
  (exists reply x,
      reads i reply x /\ issued r = step i (v, reply) /\
      out r = Returned tt /\ currents (final r) = currents f ++ [x]) \/
  (exists e,
      out r = Raised e /\ currents (final r) = currents f /\
      forall vs, loop_trace i (v :: vs) (issued r) [] (Raised e)).
Proof.
  assert (E : body i v = bind (write (level_cmd i v)) (fun _ =>
                bind (query (query_cmd i)) (fun data =>
                bind (lift (reading i data)) currents_append)))
    by (destruct i; reflexivity).
  intros r. subst r. rewrite E. clear E.
  destruct (write_run (level_cmd i v) f) as (res & st & _ & Wi & Wf & Wo).
  destruct res as [e|].
  - destruct (bind_raised _ (fun _ => bind (query (query_cmd i)) (fun data =>
                bind (lift (reading i data)) currents_append)) _ _ Wo) as (-> & -> & ->).
    rewrite Wi, Wf. right. exists (VisaIOError e). repeat split. constructor.
  - destruct (bind_returned _ (fun _ => bind (query (query_cmd i)) (fun data =>
                bind (lift (reading i data)) currents_append)) _ _ Wo) as (-> & -> & ->).
    rewrite Wi, Wf. clear Wi Wf Wo.
    set (f1 := {| instr := st; currents := currents f |}).
    destruct (query_run (query_cmd i) f1) as (res & st' & _ & Qi & Qf & Qo).
    destruct res as [e|reply].
    + destruct (bind_raised _ (fun data => bind (lift (reading i data)) currents_append) _ _ Qo)
        as (-> & -> & ->).
      rewrite Qi, Qf. right. exists (VisaIOError e). repeat split. constructor.
    + destruct (bind_returned _ (fun data => bind (lift (reading i data)) currents_append) _ _ Qo)
        as (-> & -> & ->).
      rewrite Qi, Qf. clear Qi Qf Qo.
      set (f2 := {| instr := st'; currents := currents f1 |}).
      destruct (append_reading_run (reading i reply) f2) as (-> & H).
      destruct (reading i reply) as [x|e] eqn:Er; destruct H as (-> & ->).
      * left. exists reply, x. repeat split. exact Er.
      * right. exists e. repeat split. intros vs. simpl.
        apply lt_reading_fails. exact Er.
Qed.

End LoopFacts.

Section SweepFacts.
Context {B : Builtins} {R : Resource}.

(** The loop of a sweep follows [loop_trace], and [currents] grows by
    the values the trace lists. *)
Lemma loop_run i vs : forall f,
  let r := for_each vs (body i) f in
  exists xs, loop_trace i vs (issued r) xs (out r) /\
             currents (final r) = currents f ++ xs.
Proof.
  induction vs as [|v vs IH]; intros f; cbn zeta.
  - exists []. split; [constructor | simpl; now rewrite app_nil_r].
  - cbn [for_each].
    destruct (body_run i v f) as [(reply & x & Hr & Ei & Eo & C) | (e & Eo & C & T)].
    + destruct (bind_returned _ (fun _ => for_each vs (body i)) _ _ Eo) as (-> & -> & ->).
      destruct (IH (final (body i v f))) as (xs2 & T2 & C2). cbn zeta in T2, C2.
      exists (x :: xs2). split.
      * rewrite Ei. simpl. apply lt_step; assumption.
      * rewrite C2, C. rewrite <- app_assoc. reflexivity.
    + destruct (bind_raised _ (fun _ => for_each vs (body i)) _ _ Eo) as (-> & -> & ->).
      exists []. split; [apply T | rewrite C; now rewrite app_nil_r].
Qed.

(** After the loop: the disabling write, then [return currents]. *)
Lemma epilogue_run i f :
  let r := bind (write (off_cmd i)) (fun _ => get_currents) f in
  exists res,
    issued r = [Write (off_cmd i) res] /\
    currents (final r) = currents f /\
    out r = match res with
            | None => Returned (currents f)
            | Some e => Raised (VisaIOError e)
            end.
Proof.
  cbn zeta. destruct (write_run (off_cmd i) f) as (res & st & _ & Wi & Wf & Wo).
  exists res. destruct res as [e|].
  - destruct (bind_raised _ (fun _ => get_currents) _ _ Wo) as (-> & -> & ->).
    rewrite Wi, Wf. auto.
  - destruct (bind_returned _ (fun _ => get_currents) _ _ Wo) as (-> & -> & ->).
    rewrite Wi, Wf. simpl. auto.
Qed.

(** From [currents = []] on, a sweep runs its loop and then its
    epilogue. *)
Lemma loop_epilogue_run i vs f :
  let r := bind (assign_currents []) (fun _ =>
           bind (for_each vs (body i)) (fun _ =>
           bind (write (off_cmd i)) (fun _ => get_currents))) f in
  sweep_trace i vs (prologue i ++ issued r) (currents (final r)) (out r).
Proof.
  cbn zeta.
  set (k := fun _ : unit => bind (for_each vs (body i)) (fun _ =>
              bind (write (off_cmd i)) (fun _ => get_currents))).
  assert (Ha : out (assign_currents [] f) = Returned tt) by reflexivity.
  destruct (bind_returned _ k _ _ Ha) as (-> & -> & ->). subst k. cbn beta.
  set (f0 := final (assign_currents [] f)).
  assert (C0 : currents f0 = []) by reflexivity.
  cbn [assign_currents issued app].
  destruct (loop_run i vs f0) as (xs & T & C). cbn zeta in T, C.
  rewrite C0 in C. cbn [app] in C.
  destruct (out (for_each vs (body i) f0)) as [[]|e] eqn:Eo.
  - destruct (bind_returned _ (fun _ => bind (write (off_cmd i)) (fun _ => get_currents)) _ _ Eo)
      as (-> & -> & ->).
    destruct (epilogue_run i (final (for_each vs (body i) f0))) as (res & -> & -> & ->).
    rewrite C. apply sw_completes. exact T.
  - destruct (bind_raised _ (fun _ => bind (write (off_cmd i)) (fun _ => get_currents)) _ _ Eo)
      as (-> & -> & ->).
    rewrite C. apply sw_loop_fails. exact T.
Qed.

(** Every run of a sweep follows [sweep_trace]. *)
Lemma sweep_run i vs f :
  let r := iv_sweep i vs f in
  sweep_trace i vs (issued r) (currents (final r)) (out r).
Proof.
  destruct i; cbn zeta.
  - exact (loop_epilogue_run K2400 vs f).
  - change (iv_sweep K2614B vs) with
      (bind (write "smua.source.output = smua.OUTPUT_ON") (fun _ =>
       bind (assign_currents []) (fun _ =>
       bind (for_each vs (body K2614B)) (fun _ =>
       bind (write (off_cmd K2614B)) (fun _ => get_currents))))).
    set (k := fun _ : unit => bind (assign_currents []) (fun _ =>
              bind (for_each vs (body K2614B)) (fun _ =>
              bind (write (off_cmd K2614B)) (fun _ => get_currents)))).
    destruct (write_run "smua.source.output = smua.OUTPUT_ON" f)
      as (res & st & _ & Wi & Wf & Wo).
    destruct res as [e|].
    + destruct (bind_raised _ k _ _ Wo) as (-> & -> & ->).
      rewrite Wi. apply sw_enable_fails. reflexivity.
    + destruct (bind_returned _ k _ _ Wo) as (-> & -> & ->).
      rewrite Wi. subst k. cbn beta.
      exact (loop_epilogue_run K2614B vs (final (write "smua.source.output = smua.OUTPUT_ON" f))).
Qed.

End SweepFacts.


(** ** Facts about traces *)

Lemma prefix_append p s : String.prefix p (p +s s) = true.
Proof.
  induction p as [|a p IH]; simpl.
  - now destruct s.
  - destruct (ascii_dec a a); [exact IH | congruence].
Qed.

Lemma split_single sep s field : split sep s = [field] -> field = s.
Proof.
  revert field. induction s as [|c s IH]; simpl; intros field H.
  - congruence.
  - destruct (Ascii.eqb c sep).
    + destruct s; simpl in H; [discriminate|].
      destruct (Ascii.eqb a sep); [discriminate|].
      destruct (split sep s); discriminate.
    + destruct (split sep s) as [|x [|y l]] eqn:E; try discriminate.
      * destruct s; simpl in E; [discriminate|].
        destruct (Ascii.eqb a sep); [discriminate|].
        destruct (split sep s); discriminate.
      * injection H as <-. now rewrite (IH x eq_refl).
Qed.

Section TraceFacts.
Context {B : Builtins} {R : Resource}.
Variable i : model.

Lemma level_cmd_in_loop v res : in_loop i (Write (level_cmd i v) res) = true.
Proof. apply prefix_append. Qed.

Lemma off_cmd_not_in_loop res : in_loop i (Write (off_cmd i) res) = false.
Proof. destruct i; reflexivity. Qed.

Lemma level_cmd_not_off v : level_cmd i v <> off_cmd i.
Proof.
  intros E. pose proof (level_cmd_in_loop v None) as H.
  simpl in H. rewrite E in H.
  pose proof (off_cmd_not_in_loop None) as H'. simpl in H'. congruence.
Qed.

Lemma query_cmd_not_off : query_cmd i <> off_cmd i.
Proof. destruct i; discriminate. Qed.

Lemma prologue_facts :
  forallb (succeeded i) (prologue i) = true /\
  existsb (fun ev => failed_call ev && in_loop i ev) (prologue i) = false /\
  ~ In (off_cmd i) (map command (prologue i)) /\
  replies (prologue i) = [] /\
  levels_written i (prologue i) = [] /\
  filter is_query (prologue i) = [].
Proof.
  destruct i; repeat split; try reflexivity; simpl; intuition discriminate.
Qed.

Lemma loop_trace_nil evs xs o :
  loop_trace i [] evs xs o -> evs = [] /\ xs = [] /\ o = Returned tt.
Proof. intros T. inversion T. auto. Qed.

Lemma loop_trace_no_off vs evs xs o :
  loop_trace i vs evs xs o -> ~ In (off_cmd i) (map command evs).
Proof.
  pose proof level_cmd_not_off. pose proof query_cmd_not_off.
  induction 1; simpl; intuition eauto.
Qed.

Lemma loop_trace_returned vs evs xs :
  loop_trace i vs evs xs (Returned tt) ->
  exists rs, length rs = length vs /\ evs = steps i vs rs /\ Forall2 (reads i) rs xs.
Proof.
  intros T. remember (Returned tt) as o eqn:Eo.
  induction T; try discriminate.
  - exists []. repeat split. constructor.
  - destruct (IHT Eo) as (rs & Hl & -> & Hf).
    exists (reply :: rs). simpl. repeat split; [congruence | now constructor].
Qed.

Lemma loop_trace_clean vs evs xs o :
  loop_trace i vs evs xs o -> forallb (succeeded i) evs = true -> o = Returned tt.
Proof.
  induction 1; simpl; intros Hc; try discriminate; auto.
  - unfold reads in H. rewrite H in Hc. auto.
  - rewrite H in Hc. discriminate.
Qed.

Lemma loop_trace_failed_call vs evs xs o :
  loop_trace i vs evs xs o -> existsb failed_call evs = true ->
  exists e, o = Raised (VisaIOError e).
Proof.
  induction 1; simpl; intros Hc; try discriminate; eauto.
Qed.

Lemma loop_trace_raised vs evs xs e :
  loop_trace i vs evs xs (Raised e) -> length xs < length vs.
Proof.
  intros T. remember (Raised e) as o eqn:Eo.
  induction T; simpl; try discriminate; try lia.
  specialize (IHT Eo). lia.
Qed.

(** A reply from which no number can be read ends the loop on the spot:
    it is the last call made, the exception of the reading is the
    outcome, and [currents] holds the readings of the replies before. *)
Lemma loop_trace_bad_reply vs evs xs o cmd reply e :
  loop_trace i vs evs xs o ->
  In (Query cmd (inr reply)) evs ->
  reading i reply = Raised e ->
  o = Raised e /\
  exists before, evs = before ++ [Query cmd (inr reply)] /\
                 Forall2 (reads i) (replies before) xs.
Proof.
  intros T Hin Hbad. induction T; simpl in Hin.
  - contradiction.
  - destruct Hin as [Hin | [Hin | Hin]]; try discriminate.
    + injection Hin as _ <-. unfold reads in H. congruence.
    + destruct (IHT Hin) as (-> & before & -> & Hf). split; [reflexivity|].
      exists (Write (level_cmd i v) None :: Query (query_cmd i) (inr reply0) :: before).
      split; [reflexivity|]. simpl. now constructor.
  - destruct Hin as [Hin | []]. discriminate.
  - destruct Hin as [Hin | [Hin | []]]; discriminate.
  - destruct Hin as [Hin | [Hin | []]]; try discriminate.
    injection Hin as <- <-. split; [congruence|].
    exists [Write (level_cmd i v) None]. split; [reflexivity | constructor].
Qed.

Lemma steps_succeeded vs : forall rs xs,
  Forall2 (reads i) rs xs -> forallb (succeeded i) (steps i vs rs) = true.
Proof.
  induction vs as [|v vs IH]; intros rs xs Hf; [reflexivity|].
  destruct Hf as [|r x rs xs Hr Hf]; [reflexivity|].
  unfold steps. simpl. unfold reads in Hr. rewrite Hr. exact (IH _ _ Hf).
Qed.

Lemma steps_levels vs : forall rs tail,
  length rs = length vs ->
  levels_written i (steps i vs rs ++ tail) = map (level_cmd i) vs ++ levels_written i tail.
Proof.
  induction vs as [|v vs IH]; intros [|r rs] tail Hl; try discriminate; [reflexivity|].
  unfold steps, levels_written in *. simpl.
  change (String.prefix (level_prefix i) (level_cmd i v))
    with (in_loop i (Write (level_cmd i v) None)).
  rewrite level_cmd_in_loop. f_equal. apply IH. simpl in Hl. congruence.
Qed.

Lemma steps_queries vs : forall rs,
  length rs = length vs -> length (filter is_query (steps i vs rs)) = length vs.
Proof.
  induction vs as [|v vs IH]; intros [|r rs] Hl; try discriminate; [reflexivity|].
  unfold steps in *. simpl. f_equal. apply IH. simpl in Hl. congruence.
Qed.

End TraceFacts.


(** ** Converting responses *)

Section Converting.
Context {B : Builtins} {R : Resource}.

Lemma comprehension_float fields :
  (forall xs, comprehension py_float fields = Returned xs <->
              Forall2 (fun field x => float field = Some x) fields xs) /\
  (forall e, comprehension py_float fields = Raised e -> e = ValueError).
Proof.
  induction fields as [|field fields [IHr IHe]]; simpl.
  - split.
    + intros xs. split.
      * intros H. injection H as <-. constructor.
      * intros H. inversion H. reflexivity.
    + discriminate.
  - unfold py_float at 1 3. destruct (float field) as [x|] eqn:Ef; simpl.
    + destruct (comprehension py_float fields) as [ys|e'] eqn:E; simpl.
      * split; [|discriminate]. intros xs. split.
        -- intros H. injection H as <-. constructor; [exact Ef|]. now apply IHr.
        -- intros H. inversion H as [|? y ? ys' Hx Hf]; subst.
           apply IHr in Hf. congruence.
      * split.
        -- intros xs. split; [discriminate|].
           intros H. inversion H as [|? y ? ys' Hx Hf]; subst.
           apply IHr in Hf. discriminate.
        -- intros e H. injection H as <-. now apply IHe.
    + split.
      * intros xs. split; [discriminate|].
        intros H. inversion H; subst. congruence.
      * intros e H. congruence.
Qed.

Lemma comprehension_float_raises fields :
  Exists (fun field => float field = None) fields ->
  comprehension py_float fields = Raised ValueError.
Proof.
  intros H.
  destruct (comprehension py_float fields) as [xs|e] eqn:E.
  - exfalso. apply (proj1 (comprehension_float fields)) in E.
    induction E as [|field x fields xs Hx _ IH].
    + inversion H.
    + inversion H; subst; [congruence | auto].
  - now rewrite (proj2 (comprehension_float fields) e E).
Qed.

(** On a response that is not numeric the reading raises [ValueError]. *)
Lemma not_numeric_reading i reply :
  not_numeric i reply -> reading i reply = Raised ValueError.
Proof.
  destruct i; simpl; intros H.
  - unfold k2400_reading. now rewrite (comprehension_float_raises _ H).
  - unfold k2614B_reading, py_float. now rewrite H.
Qed.

(** What a sweep reads from a reply is the value parsed from it. *)
Lemma reads_parsed_from i reply x : reads i reply x <-> parsed_from i reply x.
Proof.
  unfold reads. destruct i; cbn [reading parsed_from].
  - unfold k2400_reading.
    destruct (comprehension_float (split "," reply)) as [Hr He].
    destruct (comprehension py_float (split "," reply)) as [xs|e] eqn:E; cbn [obind].
    + unfold getitem. split.
      * intros H. exists xs. split; [now apply Hr|].
        destruct (nth_error xs 1) as [y|]; [injection H as ->; reflexivity | discriminate].
      * intros (ys & Hf & Hn). apply Hr in Hf. injection Hf as <-. now rewrite Hn.
    + split; [discriminate|]. intros (ys & Hf & _). apply Hr in Hf. discriminate.
  - unfold k2614B_reading, py_float. destruct (float reply) as [y|].
    + split; intros H; injection H as ->; reflexivity.
    + split; discriminate.
Qed.

End Converting.

(** ** The sweeps *)

(** Case analysis on how the run of a sweep ended. *)
Ltac sweep_cases i vs f :=
  let T := fresh "T" in
  let evs := fresh "evs" in
  let o := fresh "o" in
  let xs := fresh "xs" in
  pose proof (sweep_run i vs f) as T; cbn zeta in T;
  remember (issued (iv_sweep i vs f)) as evs;
  remember (out (iv_sweep i vs f)) as o;
  remember (currents (final (iv_sweep i vs f))) as xs;
  destruct T as [on err xs Hon | evs xs err T | evs xs res T].

Section Sweeps.
Context {B : Builtins} {R : Resource}.

(** A run in which every call succeeded completed the loop: its calls are
    the prologue, one step per set-point and the disabling write, and it
    returns the readings of the replies. *)
Lemma clean_run i vs f :
  forallb (succeeded i) (issued (iv_sweep i vs f)) = true ->
  exists rs xs,
    length rs = length vs /\
    Forall2 (reads i) rs xs /\
    issued (iv_sweep i vs f) = prologue i ++ steps i vs rs ++ [Write (off_cmd i) None] /\
    out (iv_sweep i vs f) = Returned xs.
Proof.
  intros Hc. sweep_cases i vs f.
  - discriminate.
  - rewrite forallb_app in Hc. apply andb_prop in Hc as [_ Hc].
    pose proof (loop_trace_clean i _ _ _ _ T Hc). discriminate.
  - rewrite !forallb_app in Hc. apply andb_prop in Hc as [_ Hc].
    apply andb_prop in Hc as [_ Hc].
    destruct res as [e|]; [discriminate|].
    destruct (loop_trace_returned i _ _ _ T) as (rs & Hl & -> & Hf).
    exists rs, xs. auto.
Qed.

(** A run that returned completed the loop and its disabling write. *)
Lemma returned_run i vs f xs :
  out (iv_sweep i vs f) = Returned xs ->
  exists rs,
    length rs = length vs /\
    Forall2 (reads i) rs xs /\
    issued (iv_sweep i vs f) = prologue i ++ steps i vs rs ++ [Write (off_cmd i) None].
Proof.
  intros Ho. sweep_cases i vs f; try discriminate.
  destruct res as [e|]; [discriminate|]. injection Ho as <-.
  destruct (loop_trace_returned i _ _ _ T) as (rs & Hl & -> & Hf).
  exists rs. auto.
Qed.

Lemma returned_levels i vs f xs :
  out (iv_sweep i vs f) = Returned xs ->
  levels_written i (issued (iv_sweep i vs f)) = map (level_cmd i) vs.
Proof.
  intros Ho. destruct (returned_run i vs f xs Ho) as (rs & Hl & _ & ->).
  destruct (prologue_facts i) as (_ & _ & _ & _ & Hp & _).
  assert (E : forall a b, levels_written i (a ++ b) = levels_written i a ++ levels_written i b).
  { intros a b. unfold levels_written. now rewrite filter_app, map_app, filter_app. }
  rewrite E, Hp, steps_levels by exact Hl. simpl.
  unfold levels_written. simpl.
  change (String.prefix (level_prefix i) (off_cmd i)) with (in_loop i (Write (off_cmd i) None)).
  rewrite off_cmd_not_in_loop. apply app_nil_r.
Qed.

(** C1: on every input sequence of length n on which no write or query
    fails and every query response parses (every call the run issued
    succeeded), each sweep returns a result of length exactly n; this
    holds in particular for the non-empty sequences. *)
Theorem sweep_result_length i vs f :
  forallb (succeeded i) (issued (iv_sweep i vs f)) = true ->
  exists xs, out (iv_sweep i vs f) = Returned xs /\ length xs = length vs.
Proof.
  intros Hc. destruct (clean_run i vs f Hc) as (rs & xs & Hl & Hf & _ & Ho).
  exists xs. split; [exact Ho|].
  apply Forall2_length in Hf. congruence.
Qed.

(** C2, as amended: on every run in which no call fails and every
    response parses, [k2614B_iv_sweep] first enables output, then for
    each set-point in input order writes one source-level command and
    issues exactly one measurement query, and then disables output;
    [k2400_iv_sweep] does the same without any enabling command (its
    prologue is empty: its first call is the source-level write of the
    first set-point). *)
Theorem sweep_call_sequence i vs f :
  forallb (succeeded i) (issued (iv_sweep i vs f)) = true ->
  exists rs,
    length rs = length vs /\
    issued (iv_sweep i vs f) =
      match i with
      | K2400 => []
      | K2614B => [Write "smua.source.output = smua.OUTPUT_ON" None]
      end ++ steps i vs rs ++ [Write (off_cmd i) None] /\
    length (filter is_query (issued (iv_sweep i vs f))) = length vs.
Proof.
  intros Hc. destruct (clean_run i vs f Hc) as (rs & xs & Hl & Hf & Hi & Ho).
  exists rs. split; [exact Hl|]. split.
  - rewrite Hi. destruct i; reflexivity.
  - rewrite Hi, !filter_app, !length_app.
    destruct (prologue_facts i) as (_ & _ & _ & _ & _ & ->).
    rewrite steps_queries by exact Hl. simpl. lia.
Qed.

(** C4: when a sweep returns, its i-th result is the value parsed from
    the reply to the query issued right after the write of the i-th input
    voltage as the source level ([float] of that reply for the 2614B; for
    the 2400 [float] of its comma-separated field at index 1, every field
    being a number), and the source-level commands written are those of
    the input in input order; so on the reversed input the set-points are
    applied in the reverse order. *)
Theorem sweep_result_alignment i vs f xs :
  out (iv_sweep i vs f) = Returned xs ->
  (exists rs,
      length rs = length vs /\
      issued (iv_sweep i vs f) = prologue i ++ steps i vs rs ++ [Write (off_cmd i) None] /\
      Forall2 (parsed_from i) rs xs) /\
  levels_written i (issued (iv_sweep i vs f)) = map (level_cmd i) vs /\
  (forall f' xs',
      out (iv_sweep i (rev vs) f') = Returned xs' ->
      levels_written i (issued (iv_sweep i (rev vs) f')) =
      rev (levels_written i (issued (iv_sweep i vs f)))).
Proof.
  intros Ho. split; [|split].
  - destruct (returned_run i vs f xs Ho) as (rs & Hl & Hf & Hi). exists rs.
    split; [exact Hl|]. split; [exact Hi|].
    revert Hf. apply Forall2_impl. intros r x. apply reads_parsed_from.
  - exact (returned_levels i vs f xs Ho).
  - intros f' xs' Ho'.
    rewrite (returned_levels i _ _ _ Ho'), (returned_levels i _ _ _ Ho).
    apply map_rev.
Qed.

(** A reply from which the sweep gets no number ends the run on the
    spot, with the exception the reading raised. *)
Lemma bad_reply_run i vs f cmd reply e :
  In (Query cmd (inr reply)) (issued (iv_sweep i vs f)) ->
  reading i reply = Raised e ->
  out (iv_sweep i vs f) = Raised e /\
  length (currents (final (iv_sweep i vs f))) < length vs /\
  exists before,
    issued (iv_sweep i vs f) = before ++ [Query cmd (inr reply)] /\
    Forall2 (reads i) (replies before) (currents (final (iv_sweep i vs f))).
Proof.
  intros Hin Hbad. sweep_cases i vs f.
  - destruct Hin as [Hin | []]. discriminate.
  - apply in_app_or in Hin. destruct Hin as [Hin | Hin].
    + exfalso. destruct i; simpl in Hin; intuition discriminate.
    + destruct (loop_trace_bad_reply i _ _ _ _ _ _ _ T Hin Hbad) as (He & before & -> & Hf).
      injection He as ->. split; [reflexivity|]. split.
      * eapply loop_trace_raised; eauto.
      * exists (prologue i ++ before). split; [now rewrite app_assoc|].
        assert (E : replies (prologue i ++ before) = replies before)
          by (destruct i; reflexivity).
        now rewrite E.
  - exfalso. apply in_app_or in Hin. destruct Hin as [Hin | Hin].
    + destruct i; simpl in Hin; intuition discriminate.
    + apply in_app_or in Hin. destruct Hin as [Hin | Hin].
      * destruct (loop_trace_bad_reply i _ _ _ _ _ _ _ T Hin Hbad) as (He & _).
        discriminate.
      * destruct Hin as [Hin | []]. discriminate.
Qed.

(** C5: when at some step the query returns a response that is not
    convertible to a number ([float] raises on it, for the 2400 on one of
    its comma-separated fields), the sweep fails with that parse error at
    that step: the query is the last call made, the outcome is
    [ValueError], nothing was appended for that response, and [currents]
    holds exactly the values read from the replies of the steps before,
    fewer than there are set-points. *)
Theorem sweep_parse_error i vs f cmd reply :
  In (Query cmd (inr reply)) (issued (iv_sweep i vs f)) ->
  not_numeric i reply ->
  out (iv_sweep i vs f) = Raised ValueError /\
  length (currents (final (iv_sweep i vs f))) < length vs /\
  exists before,
    issued (iv_sweep i vs f) = before ++ [Query cmd (inr reply)] /\
    Forall2 (reads i) (replies before) (currents (final (iv_sweep i vs f))).
Proof.
  intros Hin Hbad. apply bad_reply_run; [exact Hin|].
  now apply not_numeric_reading.
Qed.

(** C6: when a write or query inside the loop fails, the sweep raises
    and the command that disables output is not among the commands it
    issued; that command is issued only after the loop has completed
    over every set-point. *)
Theorem sweep_no_disable_on_failure i vs f :
  (existsb (fun ev => failed_call ev && in_loop i ev) (issued (iv_sweep i vs f)) = true ->
   ~ In (off_cmd i) (map command (issued (iv_sweep i vs f))) /\
   exists e, out (iv_sweep i vs f) = Raised (VisaIOError e)) /\
  (In (off_cmd i) (map command (issued (iv_sweep i vs f))) ->
   exists rs res xs,
     length rs = length vs /\
     Forall2 (reads i) rs xs /\
     issued (iv_sweep i vs f) = prologue i ++ steps i vs rs ++ [Write (off_cmd i) res]).
Proof.
  destruct (prologue_facts i) as (_ & Hpf & Hpo & _).
  sweep_cases i vs f.
  - split.
    + intros Hx. exfalso. destruct i; [discriminate Hon|].
      injection Hon as <-. discriminate Hx.
    + intros Hin. exfalso. destruct i; [discriminate Hon|].
      injection Hon as <-. destruct Hin as [Hin | []]. discriminate.
  - assert (Hno : ~ In (off_cmd i) (map command (prologue i ++ evs))).
    { rewrite map_app. intros Hin. apply in_app_or in Hin. destruct Hin as [Hin | Hin].
      - exact (Hpo Hin).
      - exact (loop_trace_no_off i _ _ _ _ T Hin). }
    split; [|intros Hin; contradiction].
    intros Hx. split; [exact Hno|].
    rewrite existsb_app, Hpf in Hx. simpl in Hx.
    assert (Hf : existsb failed_call evs = true).
    { rewrite existsb_exists in *. destruct Hx as (ev & Hin & Hev).
      exists ev. apply andb_prop in Hev. tauto. }
    destruct (loop_trace_failed_call i _ _ _ _ T Hf) as (e & He).
    injection He as ->. now exists e.
  - split.
    + intros Hx. exfalso.
      rewrite !existsb_app, Hpf in Hx. cbn [existsb orb] in Hx.
      rewrite off_cmd_not_in_loop, andb_false_r, !orb_false_r in Hx.
      assert (Hf : existsb failed_call evs = true).
      { rewrite existsb_exists in *. destruct Hx as (ev & Hin & Hev).
        exists ev. apply andb_prop in Hev. tauto. }
      destruct (loop_trace_failed_call i _ _ _ _ T Hf). discriminate.
    + intros _. destruct (loop_trace_returned i _ _ _ T) as (rs & Hl & -> & Hf).
      exists rs, res, xs. auto.
Qed.

(** C8: on the empty input a sweep issues no measurement query and no
    write other than the commands that enable and disable output, and,
    those writes passing, returns the empty list. *)
Theorem sweep_empty_input i f :
  filter is_query (issued (iv_sweep i [] f)) = [] /\
  (forall ev, In ev (issued (iv_sweep i [] f)) ->
              is_write ev = true /\
              (command ev = off_cmd i \/ Some (command ev) = on_cmd i)) /\
  (existsb failed_call (issued (iv_sweep i [] f)) = false ->
   out (iv_sweep i [] f) = Returned []).
Proof.
  sweep_cases i (@nil value) f.
  - split; [reflexivity|]. split.
    + intros ev [<- | []]. split; [reflexivity|]. right. now rewrite Hon.
    + discriminate.
  - apply loop_trace_nil in T. destruct T as (_ & _ & T). discriminate.
  - apply loop_trace_nil in T. destruct T as (-> & -> & _).
    rewrite app_nil_l. split; [|split].
    + destruct i; reflexivity.
    + intros ev Hin. apply in_app_or in Hin. destruct Hin as [Hin | [<- | []]].
      * destruct i; simpl in Hin; [contradiction|].
        destruct Hin as [<- | []]. split; [reflexivity|]. now right.
      * split; [reflexivity|]. now left.
    + rewrite existsb_app. destruct res; simpl; [|reflexivity].
      rewrite orb_true_r. discriminate.
Qed.

End Sweeps.

(** ** Reading a 2400 response *)

Section Reading.
Context {B : Builtins} {R : Resource}.

(** The value [k2400_iv_sweep] appends for a response: the response is
    split on commas, every field is converted with [float], and the
    field at index 1 is taken. *)
Lemma k2400_reading_returned reply x :
  k2400_reading reply = Returned x <->
  exists xs, Forall2 (fun field y => float field = Some y) (split "," reply) xs /\
             nth_error xs 1 = Some x.
Proof.
  unfold k2400_reading.
  destruct (comprehension_float (split "," reply)) as [Hr He].
  destruct (comprehension py_float (split "," reply)) as [xs|e] eqn:E; cbn [obind].
  - unfold getitem. split.
    + intros H. exists xs. split; [now apply Hr|].
      destruct (nth_error xs 1) as [y|]; [injection H as ->; reflexivity | discriminate].
    + intros (ys & Hf & Hn). apply Hr in Hf. injection Hf as <-. now rewrite Hn.
  - split; [discriminate|]. intros (ys & Hf & _). apply Hr in Hf. discriminate.
Qed.

(** A response with a single field: [ValueError] when the field is not a
    number, [IndexError] when it is. *)
Lemma k2400_reading_short reply :
  length (split "," reply) < 2 ->
  split "," reply = [reply] /\
  k2400_reading reply = match float reply with
                        | Some _ => Raised IndexError
                        | None => Raised ValueError
                        end.
Proof.
  intros Hl.
  destruct (split "," reply) as [|field [|field' rest]] eqn:E.
  - destruct reply; simpl in E; [discriminate|].
    destruct (Ascii.eqb a ","); [discriminate|].
    destruct (split "," reply); discriminate.
  - pose proof (split_single _ _ _ E) as ->. split; [reflexivity|].
    unfold k2400_reading. rewrite E. simpl. unfold py_float.
    destruct (float reply); reflexivity.
  - simpl in Hl. lia.
Qed.

(** C10, as amended: [k2400_iv_sweep] gets the value it appends from a
    response by splitting it on commas, converting every field to a
    number and taking the field at index 1; at a step whose response has
    fewer than two comma-separated fields the sweep fails there instead
    of returning a value, with the out-of-range index access
    ([IndexError]) when the single field converts to a number and with
    the conversion error ([ValueError]) when it does not. *)
Theorem k2400_short_response vs f cmd reply :
  In (Query cmd (inr reply)) (issued (k2400_iv_sweep vs f)) ->
  (forall x, k2400_reading reply = Returned x <->
             exists xs, Forall2 (fun field y => float field = Some y) (split "," reply) xs /\
                        nth_error xs 1 = Some x) /\
  (length (split "," reply) < 2 ->
   split "," reply = [reply] /\
   (exists before, issued (k2400_iv_sweep vs f) = before ++ [Query cmd (inr reply)]) /\
   ((exists x, float reply = Some x /\ out (k2400_iv_sweep vs f) = Raised IndexError) \/
    (float reply = None /\ out (k2400_iv_sweep vs f) = Raised ValueError))).
Proof.
  intros Hin. split; [intros x; apply k2400_reading_returned|].
  intros Hl. destruct (k2400_reading_short reply Hl) as [Hs Hr].
  split; [exact Hs|].
  destruct (float reply) as [x|] eqn:Ef.
  - destruct (bad_reply_run K2400 vs f cmd reply IndexError Hin Hr)
      as (Ho & _ & before & Hi & _).
    split; [now exists before|]. left. exists x. auto.
  - destruct (bad_reply_run K2400 vs f cmd reply ValueError Hin Hr)
      as (Ho & _ & before & Hi & _).
    split; [now exists before|]. right. auto.
Qed.

End Reading.

(** ** The setup procedures *)

(** One [write] at the head of a sequence: it fails and ends the run, or
    it passes and the run goes on. *)
Ltac write_step :=
  match goal with
  | |- context [bind (write ?c) ?k ?f] =>
      let res := fresh "res" in
      let st := fresh "st" in
      let Wi := fresh "Wi" in
      let Wf := fresh "Wf" in
      let Wo := fresh "Wo" in
      destruct (write_run c f) as (res & st & _ & Wi & Wf & Wo);
      let Bo := fresh "Bo" in
      let Bi := fresh "Bi" in
      let Bf := fresh "Bf" in
      destruct res;
      first [ destruct (bind_raised _ k _ _ Wo) as (Bo & Bi & Bf)
            | destruct (bind_returned _ k _ _ Wo) as (Bo & Bi & Bf) ];
      rewrite ?Bo, ?Bi, ?Bf; clear Bo Bi Bf;
      rewrite ?Wi, ?Wf; clear Wi Wf Wo; cbn beta
  end.

Ltac last_write :=
  match goal with
  | |- context [write ?c ?f] =>
      let res := fresh "res" in
      let st := fresh "st" in
      let Wi := fresh "Wi" in
      let Wo := fresh "Wo" in
      destruct (write_run c f) as (res & st & _ & Wi & _ & Wo);
      rewrite ?Wi, ?Wo; clear Wi Wo; destruct res
  end.

Section Setups.
Context {B : Builtins} {R : Resource}.

(** The six commands of [k2400_setup], each carrying the text of the
    parameter it sets. *)
Lemma k2400_setup_writes func v_range i_range delay f :
  out (k2400_setup func v_range i_range delay f) = Returned tt ->
  issued (k2400_setup func v_range i_range delay f) =
  [Write "OUTP OFF" None;
   Write ":SOUR:CLE:AUTO OFF" None;
   Write (":SOUR:FUNC " +s func) None;
   Write (":SOUR:VOLT:RANG " +s str v_range) None;
   Write (":SOUR:CURR:RANG " +s str i_range) None;
   Write (":SOUR:DEL " +s str delay) None].
Proof.
  unfold k2400_setup.
  do 5 (write_step; [discriminate|]).
  last_write; [discriminate|]. reflexivity.
Qed.

(** The six commands of [k2614B_setup]. *)
Lemma k2614B_setup_writes sfunc mfunc v_range i_range delay f :
  out (k2614B_setup sfunc mfunc v_range i_range delay f) = Returned tt ->
  issued (k2614B_setup sfunc mfunc v_range i_range delay f) =
  [Write "smua.source.output = smua.OUTPUT_OFF" None;
   Write ("smua.source.func = smua.OUTPUT_" +s sfunc) None;
   Write "display.smua.measure.func = display.MEASURE_DCAMPS" None;
   Write ("smua.measure.rangev = " +s str v_range) None;
   Write ("smua.measure.rangei = " +s str i_range) None;
   Write ("smua.measure.delay = " +s str delay) None].
Proof.
  unfold k2614B_setup.
  do 5 (write_step; [discriminate|]).
  last_write; [discriminate|]. reflexivity.
Qed.

(** C9: [k2614B_setup] never uses [mfunc]: with the other parameters
    equal, any two values of [mfunc] give the same run (the same calls
    with the same results, the same outcome, the same final state), and
    the command for the measurement display function, the third one, is
    the fixed text with [MEASURE_DCAMPS]. *)
Theorem k2614B_setup_ignores_mfunc sfunc mfunc mfunc' v_range i_range delay f :
  k2614B_setup sfunc mfunc v_range i_range delay f =
  k2614B_setup sfunc mfunc' v_range i_range delay f /\
  (forall ev,
      nth_error (issued (k2614B_setup sfunc mfunc v_range i_range delay f)) 2 = Some ev ->
      command ev = "display.smua.measure.func = display.MEASURE_DCAMPS").
Proof.
  split; [reflexivity|].
  unfold k2614B_setup. intros ev.
  write_step; [discriminate|].
  write_step; [discriminate|].
  write_step; [intros H; injection H as <-; reflexivity|].
  intros H; injection H as <-; reflexivity.
Qed.

End Setups.


(** ** Concrete runs *)

Module Runs.
Import CPython Scenario.


(** [float] and [str] on the numbers of the lesson, bit for bit. *)
Example float_of_text :
  float_of_string "0.1" = Some (S754_finite false 7205759403792794 (-56)) /\
  float_of_string "-0.001" = Some (S754_finite true 4611686018427388 (-62)) /\
  float_of_string " 1e3 " = Some (S754_finite false 8796093022208000 (-43)) /\
  float_of_string "5e-324" = Some (S754_finite false 1 (-1074)) /\
  float_of_string "1e400" = Some (S754_infinity false) /\
  float_of_string "" = None /\
  float_of_string "1.0,2.0" = None /\
  float_of_string "abc" = None.
Proof. vm_compute. repeat split. Qed.

Example text_of_float :
  map (fun text => float_repr (literal text))
      ["0.1"; "-1.0"; "0.0005"; "1e16"; "1e-5"; "0.30000000000000004";
       "123456789012345678"; "5e-324"; "100"] =
  ["0.1"; "-1.0"; "0.0005"; "1e+16"; "1e-05"; "0.30000000000000004";
   "1.2345678901234568e+17"; "5e-324"; "100.0"] /\
  map object_str [v_range; i_range; delay] = ["2"; "0.1"; "0"].
Proof. vm_compute. split; reflexivity. Qed.

Example split_on_commas :
  split "," "1.0,0.001,9.91e+37" = ["1.0"; "0.001"; "9.91e+37"] /\
  split "," "a,,b" = ["a"; ""; "b"] /\
  split "," "abc" = ["abc"] /\
  split "," "" = [""].
Proof. repeat split. Qed.

(** C7: with mode ["VOLT"], ranges 2 and 0.1 and delay 0, the sweep over
    [-1.0, -0.5, 0.0, 0.5, 1.0] against the stub of a 1 kilo-ohm resistor
    (current = voltage / 1000) returns exactly
    [-0.001, -0.0005, 0.0, 0.0005, 0.001], for the 2400 and, whatever
    measurement function is passed, for the 2614B. *)
Theorem resistor_sweep_example (mfunc : string) :
  out (@bind builtins Resistor.resource _ _
         (k2400_setup func v_range i_range delay)
         (fun _ => k2400_iv_sweep v_sweep) Resistor.start) = Returned expected /\
  out (@bind builtins Resistor.resource _ _
         (k2614B_setup func mfunc v_range i_range delay)
         (fun _ => k2614B_iv_sweep v_sweep) Resistor.start) = Returned expected /\
  expected = [S754_finite true 4611686018427388 (-62);
              S754_finite true 4611686018427388 (-63);
              S754_zero false;
              S754_finite false 4611686018427388 (-63);
              S754_finite false 4611686018427388 (-62)].
Proof. vm_compute. repeat split. Qed.

(** C3, at the input on which the code departs from it: called with the
    measurement function ["DCVOLTS"], [k2614B_setup] completes with six
    writes, the first of which disables output, and none of them
    mentions ["DCVOLTS"]; the display command carries [DCAMPS]. *)
Theorem k2614B_setup_drops_mfunc :
  out (@k2614B_setup builtins Resistor.resource
         "DCAMPS" "DCVOLTS" (PyInt 3) (PyFloat (literal "0.2")) (PyInt 1)
         Resistor.start) = Returned tt /\
  map command
      (issued (@k2614B_setup builtins Resistor.resource
                 "DCAMPS" "DCVOLTS" (PyInt 3) (PyFloat (literal "0.2")) (PyInt 1)
                 Resistor.start)) =
  ["smua.source.output = smua.OUTPUT_OFF";
   "smua.source.func = smua.OUTPUT_DCAMPS";
   "display.smua.measure.func = display.MEASURE_DCAMPS";
   "smua.measure.rangev = 3";
   "smua.measure.rangei = 0.2";
   "smua.measure.delay = 1"] /\
  existsb (mentions "DCVOLTS")
      (map command
         (issued (@k2614B_setup builtins Resistor.resource
                    "DCAMPS" "DCVOLTS" (PyInt 3) (PyFloat (literal "0.2")) (PyInt 1)
                    Resistor.start))) = false.
Proof. vm_compute. repeat split. Qed.

(** The same call to the 2400 carries every parameter. *)
Example k2400_setup_example :
  map command
      (issued (@k2400_setup builtins Resistor.resource
                 func v_range i_range delay Resistor.start)) =
  ["OUTP OFF"; ":SOUR:CLE:AUTO OFF"; ":SOUR:FUNC VOLT";
   ":SOUR:VOLT:RANG 2"; ":SOUR:CURR:RANG 0.1"; ":SOUR:DEL 0"].
Proof. vm_compute. reflexivity. Qed.

(** C2 fails on [k2400_iv_sweep]: on the single set-point 1.0 its first
    call is the source-level write, no command enabling output comes
    before it, and its calls are not of the form enable, steps,
    disable. *)
Lemma k2400_sweep_does_not_enable_output :
  issued (@k2400_iv_sweep builtins Resistor.resource
            [PyFloat (literal "1.0")] Resistor.start) =
  [Write ":SOUR:VOLT 1.0" None;
   Query ":MEAS:CURR?" (inr "1.0,0.001,9.91e+37,0.0,0.0");
   Write "OUTP OFF" None] /\
  ~ @enable_sweep_disable builtins K2400 [PyFloat (literal "1.0")]
      (issued (@k2400_iv_sweep builtins Resistor.resource
                 [PyFloat (literal "1.0")] Resistor.start)).
Proof.
  assert (E : issued (@k2400_iv_sweep builtins Resistor.resource
                        [PyFloat (literal "1.0")] Resistor.start) =
              [Write ":SOUR:VOLT 1.0" None;
               Query ":MEAS:CURR?" (inr "1.0,0.001,9.91e+37,0.0,0.0");
               Write "OUTP OFF" None])
    by (vm_compute; reflexivity).
  split; [exact E|].
  rewrite E. intros (enable & rs & Hl & He).
  destruct rs as [|r [|r' rs]]; try discriminate Hl.
  apply (f_equal (@length event)) in He. discriminate He.
Qed.

(** C10 fails on a single field that is not a number: the response
    ["abc"] has fewer than two fields and the sweep raises [ValueError],
    not [IndexError]. *)
Lemma k2400_short_response_value_error :
  length (split "," "abc") < 2 /\
  In (Query ":MEAS:CURR?" (inr "abc"))
     (issued (@k2400_iv_sweep builtins Scripted.resource
                [PyFloat (literal "1.0")] (Scripted.start [inr ""; inr "abc"]))) /\
  out (@k2400_iv_sweep builtins Scripted.resource
         [PyFloat (literal "1.0")] (Scripted.start [inr ""; inr "abc"])) = Raised ValueError /\
  out (@k2400_iv_sweep builtins Scripted.resource
         [PyFloat (literal "1.0")] (Scripted.start [inr ""; inr "abc"])) <> Raised IndexError.
Proof.
  split; [vm_compute; lia|]. split; [vm_compute; tauto|].
  split; [vm_compute; reflexivity | vm_compute; discriminate].
Qed.

(** *** Witnesses: the theorems above at concrete runs *)

Lemma sweep_result_length_witness :
  (forallb (succeeded K2400)
     (issued (@iv_sweep builtins Resistor.resource K2400 v_sweep Resistor.start)) = true /\
   exists xs,
     out (@iv_sweep builtins Resistor.resource K2400 v_sweep Resistor.start) = Returned xs /\
     length xs = length v_sweep) /\
  (forallb (succeeded K2614B)
     (issued (@iv_sweep builtins Resistor.resource K2614B v_sweep Resistor.start)) = true /\
   exists xs,
     out (@iv_sweep builtins Resistor.resource K2614B v_sweep Resistor.start) = Returned xs /\
     length xs = length v_sweep).
Proof.
  split; (split; [vm_compute; reflexivity |]).
  - apply (@sweep_result_length builtins Resistor.resource K2400 v_sweep Resistor.start).
    vm_compute; reflexivity.
  - apply (@sweep_result_length builtins Resistor.resource K2614B v_sweep Resistor.start).
    vm_compute; reflexivity.
Defined.

Lemma sweep_call_sequence_witness :
  forallb (succeeded K2614B)
     (issued (@iv_sweep builtins Resistor.resource K2614B v_sweep Resistor.start)) = true /\
  exists rs,
    length rs = length v_sweep /\
    issued (@iv_sweep builtins Resistor.resource K2614B v_sweep Resistor.start) =
      [Write "smua.source.output = smua.OUTPUT_ON" None]
      ++ steps K2614B v_sweep rs ++ [Write (off_cmd K2614B) None] /\
    length (filter is_query
              (issued (@iv_sweep builtins Resistor.resource K2614B v_sweep Resistor.start))) =
    length v_sweep.
Proof.
  split; [vm_compute; reflexivity |].
  apply (@sweep_call_sequence builtins Resistor.resource K2614B v_sweep Resistor.start).
  vm_compute; reflexivity.
Defined.

Lemma sweep_result_alignment_witness :
  (out (@iv_sweep builtins Resistor.resource K2400 v_sweep Resistor.start) = Returned expected /\
   exists rs,
     length rs = length v_sweep /\
     issued (@iv_sweep builtins Resistor.resource K2400 v_sweep Resistor.start) =
     prologue K2400 ++ steps K2400 v_sweep rs ++ [Write (off_cmd K2400) None] /\
     Forall2 (@parsed_from builtins K2400) rs expected) /\
  (out (@iv_sweep builtins Resistor.resource K2614B v_sweep Resistor.start) = Returned expected /\
   exists rs,
     length rs = length v_sweep /\
     issued (@iv_sweep builtins Resistor.resource K2614B v_sweep Resistor.start) =
     prologue K2614B ++ steps K2614B v_sweep rs ++ [Write (off_cmd K2614B) None] /\
     Forall2 (@parsed_from builtins K2614B) rs expected).
Proof.
  assert (H1 : out (@iv_sweep builtins Resistor.resource K2400 v_sweep Resistor.start)
               = Returned expected) by (vm_compute; reflexivity).
  assert (H2 : out (@iv_sweep builtins Resistor.resource K2614B v_sweep Resistor.start)
               = Returned expected) by (vm_compute; reflexivity).
  split; (split; [assumption |]).
  - exact (proj1 (@sweep_result_alignment builtins Resistor.resource
                    K2400 v_sweep Resistor.start expected H1)).
  - exact (proj1 (@sweep_result_alignment builtins Resistor.resource
                    K2614B v_sweep Resistor.start expected H2)).
Defined.

Lemma sweep_parse_error_witness :
  (In (Query ":MEAS:CURR?" (inr "-0.5,overflow"))
      (issued (@iv_sweep builtins Scripted.resource K2400 two_points (Scripted.start bad_2400))) /\
   out (@iv_sweep builtins Scripted.resource K2400 two_points (Scripted.start bad_2400))
   = Raised ValueError) /\
  (In (Query "print(smua.measure.i())" (inr "overflow"))
      (issued (@iv_sweep builtins Scripted.resource K2614B two_points (Scripted.start bad_2614B))) /\
   out (@iv_sweep builtins Scripted.resource K2614B two_points (Scripted.start bad_2614B))
   = Raised ValueError).
Proof.
  assert (H1 : In (Query ":MEAS:CURR?" (inr "-0.5,overflow"))
                  (issued (@iv_sweep builtins Scripted.resource K2400 two_points
                             (Scripted.start bad_2400))))
    by (vm_compute; tauto).
  assert (H2 : In (Query "print(smua.measure.i())" (inr "overflow"))
                  (issued (@iv_sweep builtins Scripted.resource K2614B two_points
                             (Scripted.start bad_2614B))))
    by (vm_compute; tauto).
  split; (split; [assumption |]).
  - refine (proj1 (@sweep_parse_error builtins Scripted.resource K2400 two_points
                     (Scripted.start bad_2400) _ _ H1 _)).
    apply Exists_cons_tl, Exists_cons_hd. vm_compute; reflexivity.
  - refine (proj1 (@sweep_parse_error builtins Scripted.resource K2614B two_points
                     (Scripted.start bad_2614B) _ _ H2 _)).
    vm_compute; reflexivity.
Defined.

Lemma sweep_no_disable_on_failure_witness :
  existsb (fun ev => failed_call ev && in_loop K2400 ev)
    (issued (@iv_sweep builtins Scripted.resource K2400 two_points
               (Scripted.start timeout_2400))) = true /\
  ~ In "OUTP OFF"
      (map command (issued (@iv_sweep builtins Scripted.resource K2400 two_points
                              (Scripted.start timeout_2400)))) /\
  exists e, out (@iv_sweep builtins Scripted.resource K2400 two_points
                   (Scripted.start timeout_2400)) = Raised (VisaIOError e).
Proof.
  split; [vm_compute; reflexivity |].
  apply (proj1 (@sweep_no_disable_on_failure builtins Scripted.resource K2400 two_points
                  (Scripted.start timeout_2400))).
  vm_compute; reflexivity.
Defined.

Lemma sweep_empty_input_witness :
  existsb failed_call
    (issued (@iv_sweep builtins Resistor.resource K2614B [] Resistor.start)) = false /\
  out (@iv_sweep builtins Resistor.resource K2614B [] Resistor.start) = Returned [].
Proof.
  split; [vm_compute; reflexivity |].
  apply (proj2 (proj2 (@sweep_empty_input builtins Resistor.resource K2614B Resistor.start))).
  vm_compute; reflexivity.
Defined.

Lemma k2400_short_response_witness :
  In (Query ":MEAS:CURR?" (inr "-0.0005"))
     (issued (@k2400_iv_sweep builtins Scripted.resource two_points
                (Scripted.start short_2400))) /\
  length (split "," "-0.0005") < 2 /\
  ((exists x, float_of_string "-0.0005" = Some x /\
              out (@k2400_iv_sweep builtins Scripted.resource two_points
                     (Scripted.start short_2400)) = Raised IndexError) \/
   (float_of_string "-0.0005" = None /\
    out (@k2400_iv_sweep builtins Scripted.resource two_points
           (Scripted.start short_2400)) = Raised ValueError)).
Proof.
  assert (H : In (Query ":MEAS:CURR?" (inr "-0.0005"))
                 (issued (@k2400_iv_sweep builtins Scripted.resource two_points
                            (Scripted.start short_2400))))
    by (vm_compute; tauto).
  assert (L : length (split "," "-0.0005") < 2) by (vm_compute; lia).
  split; [exact H |]. split; [exact L |].
  exact (proj2 (proj2 (proj2 (@k2400_short_response builtins Scripted.resource two_points
                                (Scripted.start short_2400) _ _ H) L))).
Defined.
End Runs.


(** * Further properties *)

(** ** Setups that fail part-way *)

(** Closes the case where the run of writes stopped after [k] of them. *)
Ltac stopped k :=
  exists k; eexists; split;
  [ unfold stops_after; split; [cbn; lia | split; [reflexivity | cbn; intros; try discriminate; reflexivity]]
  | reflexivity ].

Section SetupFailures.
Context {B : Builtins} {R : Resource}.

(** X1: [k2400_setup] stops at the first write that fails: the commands it
    issued are the first ones of its six, in order, all passed except
    possibly the last; when the last one failed the setup raises that
    error and the remaining commands are never written (nothing is rolled
    back); when it passed it was the sixth and the setup returns. *)
Theorem k2400_setup_stops_at_failure func v_range i_range delay f :
  exists k res,
    stops_after (k2400_setup_cmds func v_range i_range delay) k res
      (issued (k2400_setup func v_range i_range delay f)) /\
    out (k2400_setup func v_range i_range delay f) =
    match res with
    | None => Returned tt
    | Some e => Raised (VisaIOError e)
    end.
Proof.
  unfold k2400_setup.
  write_step; [stopped 0|].
  write_step; [stopped 1|].
  write_step; [stopped 2|].
  write_step; [stopped 3|].
  write_step; [stopped 4|].
  last_write; stopped 5.
Qed.

(** X2: [k2614B_setup] stops at the first write that fails, in the same
    way. *)
Theorem k2614B_setup_stops_at_failure sfunc mfunc v_range i_range delay f :
  exists k res,
    stops_after (k2614B_setup_cmds sfunc v_range i_range delay) k res
      (issued (k2614B_setup sfunc mfunc v_range i_range delay f)) /\
    out (k2614B_setup sfunc mfunc v_range i_range delay f) =
    match res with
    | None => Returned tt
    | Some e => Raised (VisaIOError e)
    end.
Proof.
  unfold k2614B_setup.
  write_step; [stopped 0|].
  write_step; [stopped 1|].
  write_step; [stopped 2|].
  write_step; [stopped 3|].
  write_step; [stopped 4|].
  last_write; stopped 5.
Qed.

End SetupFailures.


(** ** Sweeps that fail part-way *)

Section SweepFailures.
Context {B : Builtins} {R : Resource}.

Lemma levels_written_app i evs evs' :
  levels_written i (evs ++ evs') = levels_written i evs ++ levels_written i evs'.
Proof. unfold levels_written. now rewrite filter_app, map_app, filter_app. Qed.

Lemma levels_written_off i res : levels_written i [Write (off_cmd i) res] = [].
Proof. destruct i; reflexivity. Qed.

Lemma levels_written_level i v res evs :
  levels_written i (Write (level_cmd i v) res :: evs) = level_cmd i v :: levels_written i evs.
Proof.
  pose proof (level_cmd_in_loop i v None) as H. cbn [in_loop] in H.
  unfold levels_written. cbn [filter is_write is_query negb map command].
  now rewrite H.
Qed.

Lemma levels_written_query i cmd res evs :
  levels_written i (Query cmd res :: evs) = levels_written i evs.
Proof. reflexivity. Qed.

(** Inside the loop only source levels are written and only the
    measurement is queried. *)
Lemma loop_trace_in_loop i vs evs xs o :
  loop_trace i vs evs xs o -> forallb (in_loop i) evs = true.
Proof.
  induction 1; cbn [forallb]; rewrite ?level_cmd_in_loop; auto.
Qed.

Lemma firstn_snoc {A} (l : list A) : forall n v,
  nth_error l n = Some v -> firstn (S n) l = firstn n l ++ [v].
Proof.
  induction l as [|a l IH]; intros [|n] v H; cbn in *; try discriminate.
  - now injection H as ->.
  - now rewrite <- (IH n v H).
Qed.

Lemma filter_all {A} (p : A -> bool) l : forallb p l = true -> filter p l = l.
Proof.
  induction l as [|a l IH]; [reflexivity|]. cbn. intros H.
  apply andb_prop in H as [-> H]. now rewrite (IH H).
Qed.

(** The calls of the loop: a completed step for each of the first set-points,
    in input order, each with a reply from which a value is parsed, then
    nothing more when the loop completes, or the unfinished step of the
    next set-point when it raises. *)
Lemma loop_trace_shape i vs evs xs o :
  loop_trace i vs evs xs o ->
  exists rs tail,
    length rs <= length vs /\
    evs = steps i (firstn (length rs) vs) rs ++ tail /\
    Forall (fun r => exists x, parsed_from i r x) rs /\
    match o with
    | Returned _ => tail = [] /\ length rs = length vs
    | Raised _ => exists v, nth_error vs (length rs) = Some v /\ unfinished_step i v tail
    end.
Proof.
  induction 1 as [ | v vs reply x evs xs o Hr T IH | v vs e | v vs e | v vs reply e Hr ].
  - exists [], []. cbn. repeat split; auto.
  - destruct IH as (rs & tail & Hl & -> & Hp & Ho).
    exists (reply :: rs), tail. cbn [length firstn]. repeat split.
    + lia.
    + constructor; [|exact Hp]. exists x. now apply reads_parsed_from.
    + destruct o; [destruct Ho as [-> ->]; auto | exact Ho].
  - exists [], [Write (level_cmd i v) (Some e)]. cbn. repeat split; try lia; auto.
    exists v. split; [reflexivity|]. left. now exists e.
  - exists [], [Write (level_cmd i v) None; Query (query_cmd i) (inl e)].
    cbn. repeat split; try lia; auto.
    exists v. split; [reflexivity|]. right. left. now exists e.
  - exists [], [Write (level_cmd i v) None; Query (query_cmd i) (inr reply)].
    cbn. repeat split; try lia; auto.
    exists v. split; [reflexivity|]. right. right. exists reply. split; [|reflexivity].
    intros x Hx. apply reads_parsed_from in Hx. unfold reads in Hx. congruence.
Qed.

(** Counting the source levels and the queries of such a list of calls. *)
Lemma shape_counts i vs rs tail :
  length rs <= length vs ->
  (tail = [] \/ exists v, nth_error vs (length rs) = Some v /\ unfinished_step i v tail) ->
  exists k,
    k <= length vs /\
    levels_written i (steps i (firstn (length rs) vs) rs ++ tail)
    = map (level_cmd i) (firstn k vs) /\
    (length (filter is_query (steps i (firstn (length rs) vs) rs ++ tail)) = k \/
     (S (length (filter is_query (steps i (firstn (length rs) vs) rs ++ tail))) = k /\
      exists ce u, nth_error vs (k - 1) = Some u /\ tail = [Write (level_cmd i u) (Some ce)])).
Proof.
  intros Hl Ht.
  assert (Hn : length rs = length (firstn (length rs) vs)) by (rewrite length_firstn; lia).
  assert (Hq : length (filter is_query (steps i (firstn (length rs) vs) rs)) = length rs).
  { rewrite steps_queries by exact Hn. now rewrite <- Hn. }
  pose proof (steps_levels i (firstn (length rs) vs) rs tail Hn) as Hs.
  rewrite filter_app, length_app, Hq, Hs.
  destruct Ht as [-> | (v & Hv & [(ce & ->) | [(ce & ->) | (reply & _ & ->)]])].
  - exists (length rs). cbn. rewrite app_nil_r, Nat.add_0_r. auto.
  - assert (Hlt : length rs < length vs) by (apply nth_error_Some; congruence).
    exists (S (length rs)). rewrite levels_written_level, (firstn_snoc _ _ _ Hv), map_app.
    cbn. repeat split; [lia|]. right. split; [lia|].
    exists ce, v. rewrite Nat.sub_0_r. auto.
  - assert (Hlt : length rs < length vs) by (apply nth_error_Some; congruence).
    exists (S (length rs)). rewrite levels_written_level, (firstn_snoc _ _ _ Hv), map_app.
    cbn. repeat split; [lia|]. left. lia.
  - assert (Hlt : length rs < length vs) by (apply nth_error_Some; congruence).
    exists (S (length rs)). rewrite levels_written_level, (firstn_snoc _ _ _ Hv), map_app.
    cbn. repeat split; [lia|]. left. lia.
Qed.

(** When the loop raises, the exception comes from the last call it made,
    and every call before that one succeeded. *)
Lemma loop_trace_blames i vs evs xs e :
  loop_trace i vs evs xs (Raised e) ->
  exists before last,
    evs = before ++ [last] /\ blames i last e /\
    forallb (succeeded i) before = true.
Proof.
  intros T. remember (Raised e) as o eqn:Eo.
  induction T as [ | v vs reply x evs xs o Hr T IH | v vs e' | v vs e' | v vs reply e' Hr ];
    try discriminate.
  - destruct (IH Eo) as (before & last & -> & Hb & Hs).
    exists (Write (level_cmd i v) None :: Query (query_cmd i) (inr reply) :: before), last.
    repeat split; auto. cbn. unfold reads in Hr. now rewrite Hr.
  - injection Eo as <-. exists [], (Write (level_cmd i v) (Some e')). now repeat split.
  - injection Eo as <-.
    exists [Write (level_cmd i v) None], (Query (query_cmd i) (inl e')). now repeat split.
  - injection Eo as <-.
    exists [Write (level_cmd i v) None], (Query (query_cmd i) (inr reply)). now repeat split.
Qed.

(** X3: on every run of a sweep, failed or not, the calls made inside the
    loop are, for the first set-points of the input in input order, the
    source-level write followed by its query and a reply from which a
    value is parsed, and then nothing more, or the unfinished step of the
    next set-point (its write failed, or its query failed, or its reply
    cannot be parsed).  So the source-level commands written are those of
    the first [k] set-points in input order: none is skipped, repeated or
    reordered, and after a failure none of the remaining ones is applied.
    There is one query per set-point written, except that there are [k-1]
    when the last call issued is the failed source-level write of the
    [k]-th set-point. *)
Theorem sweep_applies_prefix i vs f :
  (exists rs tail,
      length rs <= length vs /\
      filter (in_loop i) (issued (iv_sweep i vs f))
      = steps i (firstn (length rs) vs) rs ++ tail /\
      Forall (fun r => exists x, parsed_from i r x) rs /\
      (tail = [] \/
       exists v, nth_error vs (length rs) = Some v /\ unfinished_step i v tail)) /\
  (exists k,
      k <= length vs /\
      levels_written i (issued (iv_sweep i vs f)) = map (level_cmd i) (firstn k vs) /\
      length (filter is_query (issued (iv_sweep i vs f))) <= k /\
      k <= S (length (filter is_query (issued (iv_sweep i vs f)))) /\
      (length (filter is_query (issued (iv_sweep i vs f))) = k \/
       exists before ce v,
         nth_error vs (k - 1) = Some v /\
         issued (iv_sweep i vs f) = before ++ [Write (level_cmd i v) (Some ce)])).
Proof.
  destruct (prologue_facts i) as (_ & _ & _ & _ & Hpl & Hpq).
  assert (Hpi : filter (in_loop i) (prologue i) = []) by (destruct i; reflexivity).
  assert (Hoi : forall res, filter (in_loop i) [Write (off_cmd i) res] = []).
  { intros res. cbn [filter]. now rewrite off_cmd_not_in_loop. }
  sweep_cases i vs f.
  - destruct i; [discriminate Hon|]. injection Hon as <-. split.
    + exists [], []. cbn. repeat split; auto; lia.
    + exists 0. cbn. repeat split; auto; lia.
  - destruct (loop_trace_shape i _ _ _ _ T) as (rs & tail & Hl & E & Hp & v & Hv & Hu).
    pose proof (filter_all _ _ (loop_trace_in_loop i _ _ _ _ T)) as Hall.
    split.
    + exists rs, tail. rewrite filter_app, Hpi, Hall. cbn [app]. repeat split; eauto.
    + destruct (shape_counts i vs rs tail Hl (or_intror (ex_intro _ v (conj Hv Hu))))
        as (k & Hk & Hlv & Hq).
      exists k. rewrite levels_written_app, filter_app, length_app, Hpl, Hpq, E.
      cbn [app length]. split; [exact Hk|]. split; [exact Hlv|].
      destruct Hq as [Hq | (Hq & ce & u & Hu' & ->)].
      * repeat split; lia.
      * repeat split; try lia. right.
        exists (prologue i ++ steps i (firstn (length rs) vs) rs), ce, u.
        split; [exact Hu' | now rewrite app_assoc].
  - destruct (loop_trace_shape i _ _ _ _ T) as (rs & tail & Hl & E & Hp & -> & Hn).
    pose proof (filter_all _ _ (loop_trace_in_loop i _ _ _ _ T)) as Hall.
    split.
    + exists rs, []. rewrite !filter_app, Hpi, Hall, Hoi, app_nil_r. cbn [app].
      repeat split; auto.
    + destruct (shape_counts i vs rs [] Hl (or_introl eq_refl))
        as (k & Hk & Hlv & Hq).
      exists k. rewrite !levels_written_app, !filter_app, !length_app, Hpl, Hpq, E.
      rewrite levels_written_off, app_nil_r.
      cbn [app length filter is_query]. split; [exact Hk|]. split; [exact Hlv|].
      destruct Hq as [Hq | (_ & ce & u & _ & Hq)]; [|discriminate Hq].
      repeat split; lia.
Qed.

(** X4: a sweep catches nothing and adds nothing: when it raises, the
    exception is the one of the last call it issued (the resource's error
    on that write or query, or the error of reading that reply), every
    call issued before it had succeeded, and nothing is issued after
    it. *)
Theorem sweep_exception_source i vs f e :
  out (iv_sweep i vs f) = Raised e ->
  exists before last,
    issued (iv_sweep i vs f) = before ++ [last] /\
    blames i last e /\
    forallb (succeeded i) before = true.
Proof.
  intros Ho. destruct (prologue_facts i) as (Hps & _).
  sweep_cases i vs f.
  - injection Ho as <-. exists [], (Write on (Some err)). now repeat split.
  - injection Ho as <-.
    destruct (loop_trace_blames i _ _ _ _ T) as (before & last & -> & Hb & Hs).
    exists (prologue i ++ before), last. rewrite app_assoc, forallb_app, Hps, Hs.
    now repeat split.
  - destruct res as [ce|]; [|discriminate]. injection Ho as <-.
    destruct (loop_trace_returned i _ _ _ T) as (rs & Hl & -> & Hf).
    exists (prologue i ++ steps i vs rs), (Write (off_cmd i) (Some ce)).
    rewrite app_assoc, forallb_app, Hps, (steps_succeeded i vs rs xs Hf).
    now repeat split.
Qed.

(** X5: when the write that disables output fails, the readings are lost:
    the loop had completed and [currents] holds a reading for every
    set-point, but the sweep raises the error of that write instead of
    returning them. *)
Theorem sweep_disable_failure_loses_readings i vs f ce :
  In (Write (off_cmd i) (Some ce)) (issued (iv_sweep i vs f)) ->
  out (iv_sweep i vs f) = Raised (VisaIOError ce) /\
  length (currents (final (iv_sweep i vs f))) = length vs /\
  exists rs,
    Forall2 (reads i) rs (currents (final (iv_sweep i vs f))) /\
    issued (iv_sweep i vs f) =
    prologue i ++ steps i vs rs ++ [Write (off_cmd i) (Some ce)].
Proof.
  intros Hin.
  assert (Hc : In (off_cmd i) (map command (issued (iv_sweep i vs f))))
    by (apply (in_map command) in Hin; exact Hin).
  destruct (prologue_facts i) as (_ & _ & Hpo & _).
  sweep_cases i vs f.
  - exfalso. destruct i; [discriminate Hon|]. injection Hon as <-.
    destruct Hin as [Hin | []]. discriminate.
  - exfalso. rewrite map_app in Hc. apply in_app_or in Hc. destruct Hc as [Hc | Hc].
    + exact (Hpo Hc).
    + exact (loop_trace_no_off i _ _ _ _ T Hc).
  - apply in_app_or in Hin. destruct Hin as [Hin | Hin].
    { exfalso. apply Hpo. apply (in_map command) in Hin. exact Hin. }
    apply in_app_or in Hin. destruct Hin as [Hin | Hin].
    { exfalso. apply (loop_trace_no_off i _ _ _ _ T).
      apply (in_map command) in Hin. exact Hin. }
    destruct Hin as [Hin | []]. injection Hin as ->.
    destruct (loop_trace_returned i _ _ _ T) as (rs & Hl & -> & Hf).
    split; [reflexivity|]. split.
    + apply Forall2_length in Hf. congruence.
    + exists rs. auto.
Qed.

(** X6: when the write that enables output fails, [k2614B_iv_sweep] does
    nothing else: it is the only call issued, no set-point is applied, no
    measurement is queried, the disabling command is not written, and the
    error of that write is raised. *)
Theorem k2614B_enable_failure_stops vs f ce :
  In (Write "smua.source.output = smua.OUTPUT_ON" (Some ce)) (issued (k2614B_iv_sweep vs f)) ->
  issued (k2614B_iv_sweep vs f) = [Write "smua.source.output = smua.OUTPUT_ON" (Some ce)] /\
  out (k2614B_iv_sweep vs f) = Raised (VisaIOError ce).
Proof.
  intros Hin.
  assert (Hloop : forall evs, forallb (in_loop K2614B) evs = true ->
                  ~ In (Write "smua.source.output = smua.OUTPUT_ON" (Some ce)) evs).
  { intros evs Hall Hev. rewrite forallb_forall in Hall.
    specialize (Hall _ Hev). discriminate Hall. }
  change (k2614B_iv_sweep vs f) with (iv_sweep K2614B vs f) in *.
  sweep_cases K2614B vs f.
  - injection Hon as <-. destruct Hin as [Hin | []]. injection Hin as ->. auto.
  - exfalso. simpl in Hin. destruct Hin as [Hin | Hin]; [discriminate|].
    exact (Hloop _ (loop_trace_in_loop _ _ _ _ _ T) Hin).
  - exfalso. simpl in Hin. destruct Hin as [Hin | Hin]; [discriminate|].
    apply in_app_or in Hin. destruct Hin as [Hin | [Hin | []]]; [|discriminate].
    exact (Hloop _ (loop_trace_in_loop _ _ _ _ _ T) Hin).
Qed.

(** X7: [k2614B_iv_sweep] never raises [IndexError]: it converts the whole
    response and indexes nothing, so it fails only with the resource's
    error or with [ValueError]. *)
Theorem k2614B_sweep_exceptions vs f e :
  out (k2614B_iv_sweep vs f) = Raised e ->
  e = ValueError \/ exists ce, e = VisaIOError ce.
Proof.
  intros Ho.
  assert (Hb : forall ev, blames K2614B ev e -> e = ValueError \/ exists ce, e = VisaIOError ce).
  { intros [cmd [ce|] | cmd [ce|reply]]; cbn; try contradiction; eauto.
    unfold k2614B_reading, py_float. destruct (float reply); [discriminate|].
    intros H. injection H as <-. now left. }
  change (k2614B_iv_sweep vs f) with (iv_sweep K2614B vs f) in *.
  sweep_cases K2614B vs f.
  - injection Ho as <-. eauto.
  - injection Ho as <-.
    destruct (loop_trace_blames _ _ _ _ _ T) as (before & last & _ & Hbl & _). eauto.
  - destruct res as [ce|]; [|discriminate]. injection Ho as <-. eauto.
Qed.

End SweepFailures.


(** ** The measurement cells *)

Section CellRuns.
Context {B : Builtins} {R : Resource}.

(** A setup writes no source level and queries nothing, however far it
    gets. *)
Lemma k2400_setup_no_levels func v_range i_range delay f :
  levels_written K2400 (issued (k2400_setup func v_range i_range delay f)) = [] /\
  filter is_query (issued (k2400_setup func v_range i_range delay f)) = [].
Proof.
  unfold k2400_setup.
  do 5 (write_step; [split; reflexivity|]).
  last_write; split; reflexivity.
Qed.

Lemma k2614B_setup_no_levels sfunc mfunc v_range i_range delay f :
  levels_written K2614B (issued (k2614B_setup sfunc mfunc v_range i_range delay f)) = [] /\
  filter is_query (issued (k2614B_setup sfunc mfunc v_range i_range delay f)) = [].
Proof.
  unfold k2614B_setup.
  do 5 (write_step; [split; reflexivity|]).
  last_write; split; reflexivity.
Qed.

(** X8: the measurement cell of Lesson 5.  When [k2400_setup] raises, the
    cell raises the same error and the sweep is never started: the calls
    issued are those of the setup alone, no source level is written and
    nothing is measured.  When the cell returns, it has written the six
    setup commands, then one source level and one query per set-point in
    input order, then [OUTP OFF], and its result holds one reading per
    set-point. *)
Theorem k2400_cell_run func v_range i_range delay v_sweep f :
  (forall e,
      out (k2400_setup func v_range i_range delay f) = Raised e ->
      out (k2400_cell func v_range i_range delay v_sweep f) = Raised e /\
      issued (k2400_cell func v_range i_range delay v_sweep f) =
      issued (k2400_setup func v_range i_range delay f) /\
      levels_written K2400 (issued (k2400_cell func v_range i_range delay v_sweep f)) = [] /\
      filter is_query (issued (k2400_cell func v_range i_range delay v_sweep f)) = []) /\
  (forall xs,
      out (k2400_cell func v_range i_range delay v_sweep f) = Returned xs ->
      exists rs,
        length rs = length v_sweep /\ length xs = length v_sweep /\
        Forall2 (reads K2400) rs xs /\
        issued (k2400_cell func v_range i_range delay v_sweep f) =
        passed (k2400_setup_cmds func v_range i_range delay)
        ++ steps K2400 v_sweep rs ++ [Write "OUTP OFF" None]).
Proof.
  unfold k2400_cell. split.
  - intros e He.
    destruct (bind_raised _ (fun _ => k2400_iv_sweep v_sweep) _ _ He) as (-> & -> & _).
    split; [reflexivity|]. split; [reflexivity|].
    apply k2400_setup_no_levels.
  - intros xs Ho.
    destruct (out (k2400_setup func v_range i_range delay f)) as [[]|e] eqn:Es.
    + destruct (bind_returned _ (fun _ => k2400_iv_sweep v_sweep) _ _ Es) as (Eo & -> & _).
      rewrite Eo in Ho.
      destruct (returned_run K2400 _ _ _ Ho) as (rs & Hl & Hf & Hi).
      cbn [iv_sweep] in Hi. rewrite Hi.
      rewrite (k2400_setup_writes _ _ _ _ _ Es).
      exists rs. repeat split; auto.
      apply Forall2_length in Hf. congruence.
    + destruct (bind_raised _ (fun _ => k2400_iv_sweep v_sweep) _ _ Es) as (Eo & _).
      rewrite Eo in Ho. discriminate.
Qed.

(** X9: the measurement cell of the 2614B notebook, in the same way: a
    failed setup means the sweep is never started (output is not even
    enabled); a cell that returns has written the six setup commands, the
    enabling command, one source level and one query per set-point in
    input order, then the disabling command. *)
Theorem k2614B_cell_run sfunc mfunc v_range i_range delay v_sweep f :
  (forall e,
      out (k2614B_setup sfunc mfunc v_range i_range delay f) = Raised e ->
      out (k2614B_cell sfunc mfunc v_range i_range delay v_sweep f) = Raised e /\
      issued (k2614B_cell sfunc mfunc v_range i_range delay v_sweep f) =
      issued (k2614B_setup sfunc mfunc v_range i_range delay f) /\
      ~ In "smua.source.output = smua.OUTPUT_ON"
          (map command (issued (k2614B_cell sfunc mfunc v_range i_range delay v_sweep f))) /\
      levels_written K2614B
        (issued (k2614B_cell sfunc mfunc v_range i_range delay v_sweep f)) = [] /\
      filter is_query (issued (k2614B_cell sfunc mfunc v_range i_range delay v_sweep f)) = []) /\
  (forall xs,
      out (k2614B_cell sfunc mfunc v_range i_range delay v_sweep f) = Returned xs ->
      exists rs,
        length rs = length v_sweep /\ length xs = length v_sweep /\
        Forall2 (reads K2614B) rs xs /\
        issued (k2614B_cell sfunc mfunc v_range i_range delay v_sweep f) =
        passed (k2614B_setup_cmds sfunc v_range i_range delay)
        ++ [Write "smua.source.output = smua.OUTPUT_ON" None]
        ++ steps K2614B v_sweep rs
        ++ [Write "smua.source.output = smua.OUTPUT_OFF" None]).
Proof.
  unfold k2614B_cell. split.
  - intros e He.
    destruct (bind_raised _ (fun _ => k2614B_iv_sweep v_sweep) _ _ He) as (-> & -> & _).
    split; [reflexivity|]. split; [reflexivity|]. split.
    + clear He. unfold k2614B_setup.
      do 5 (write_step; [cbn; intuition discriminate|]).
      last_write; cbn; intuition discriminate.
    + apply k2614B_setup_no_levels.
  - intros xs Ho.
    destruct (out (k2614B_setup sfunc mfunc v_range i_range delay f)) as [[]|e] eqn:Es.
    + destruct (bind_returned _ (fun _ => k2614B_iv_sweep v_sweep) _ _ Es) as (Eo & -> & _).
      rewrite Eo in Ho.
      destruct (returned_run K2614B _ _ _ Ho) as (rs & Hl & Hf & Hi).
      cbn [iv_sweep] in Hi. rewrite Hi.
      rewrite (k2614B_setup_writes _ _ _ _ _ _ Es).
      exists rs. repeat split; auto.
      apply Forall2_length in Hf. congruence.
    + destruct (bind_raised _ (fun _ => k2614B_iv_sweep v_sweep) _ _ Es) as (Eo & _).
      rewrite Eo in Ho. discriminate.
Qed.

End CellRuns.


(** ** Splitting responses *)

Lemma split_nonempty sep s : split sep s <> [].
Proof.
  destruct s as [|c s]; simpl; [discriminate|].
  destruct (Ascii.eqb c sep); [discriminate|].
  destruct (split sep s); discriminate.
Qed.

(** X10: [split] loses nothing: joining the fields with the separator
    gives the text back, there is one field more than there are
    separators in the text (so at least one field, also for the empty
    text), and no field contains the separator. *)
Theorem split_join sep s :
  String.concat (String sep "") (split sep s) = s /\
  length (split sep s) = S (count_char sep s) /\
  Forall (fun field => has_char sep field = false) (split sep s).
Proof.
  induction s as [|c s (IHj & IHl & IHf)]; [repeat split; repeat constructor|].
  cbn [split count_char].
  destruct (Ascii.eqb c sep) eqn:E.
  - apply Ascii.eqb_eq in E. subst c. repeat split.
    + cbn [String.concat]. destruct (split sep s) eqn:Es; [now apply split_nonempty in Es|].
      rewrite IHj. reflexivity.
    + cbn. now rewrite IHl.
    + now constructor.
  - destruct (split sep s) as [|field fields] eqn:Es; [now apply split_nonempty in Es|].
    repeat split.
    + cbn [String.concat] in *. destruct fields; cbn; now rewrite <- IHj.
    + cbn in *. exact IHl.
    + inversion IHf; subst. constructor; [|assumption]. cbn. now rewrite E.
Qed.

(** A text without the separator is a single field. *)
Lemma split_without sep s : has_char sep s = false -> split sep s = [s].
Proof.
  induction s as [|c s IH]; [reflexivity|]. cbn. intros H.
  apply orb_false_elim in H as [-> H]. now rewrite (IH H).
Qed.

(** A text with at least two fields contains the separator. *)
Lemma split_fields_has sep s : 2 <= length (split sep s) -> has_char sep s = true.
Proof.
  intros H. destruct (has_char sep s) eqn:E; [reflexivity|].
  rewrite (split_without _ _ E) in H. cbn in H. lia.
Qed.

(** ** CPython's [float] and the two response formats *)

Module FloatFacts.
Import CPython.

Lemma has_char_reverse c s : forall acc,
  has_char c (reverse s acc) = has_char c s || has_char c acc.
Proof.
  induction s as [|a s IH]; intros acc; [reflexivity|].
  cbn. rewrite IH. cbn. now rewrite orb_assoc, (orb_comm (has_char c s)).
Qed.

Lemma has_char_lstrip c s : is_space c = false -> has_char c (lstrip s) = has_char c s.
Proof.
  intros Hc. induction s as [|a s IH]; [reflexivity|]. cbn.
  destruct (is_space a) eqn:Ea; [|reflexivity].
  rewrite IH. destruct (Ascii.eqb_spec a c); [congruence | reflexivity].
Qed.

Lemma has_char_strip c s : is_space c = false -> has_char c (strip s) = has_char c s.
Proof.
  intros Hc. unfold strip.
  rewrite has_char_reverse, has_char_lstrip, has_char_reverse, has_char_lstrip by exact Hc.
  cbn. now rewrite !orb_false_r.
Qed.

Lemma has_comma_sign s : has_char "," (snd (sign_of s)) = has_char "," s.
Proof.
  destruct s as [|a s]; [reflexivity|].
  destruct a as [[] [] [] [] [] [] [] []]; reflexivity.
Qed.

Lemma has_comma_lowercase s : has_char "," (lowercase s) = has_char "," s.
Proof.
  induction s as [|a s IH]; [reflexivity|]. cbn. rewrite IH. f_equal.
  destruct a as [[] [] [] [] [] [] [] []]; reflexivity.
Qed.

Lemma has_char_digits c : digit_of c = None ->
  forall s acc count, has_char c (snd (digits s acc count)) = has_char c s.
Proof.
  intros Hc. induction s as [|a s IH]; intros acc count; [reflexivity|].
  cbn [digits]. destruct (digit_of a) eqn:Ea; [|reflexivity].
  rewrite IH. cbn. destruct (Ascii.eqb_spec a c); [congruence | reflexivity].
Qed.

Lemma has_comma_exponent s e rest :
  exponent s = Some (e, rest) -> has_char "," rest = has_char "," s.
Proof.
  destruct s as [|c s]; cbn [exponent].
  - intros H. injection H as _ <-. reflexivity.
  - destruct (Ascii.eqb (lower c) "e") eqn:Ec.
    + pose proof (has_comma_sign s) as Hs.
      destruct (sign_of s) as [neg s']. cbn [snd] in Hs.
      pose proof (has_char_digits "," eq_refl s' 0%Z 0%Z) as Hd.
      destruct (digits s' 0%Z 0%Z) as [[n count] s'']. cbn [snd] in Hd.
      destruct (count =? 0)%Z; [discriminate|].
      intros H. injection H as _ <-. rewrite Hd, Hs. cbn.
      destruct (Ascii.eqb_spec c ","); [subst c; discriminate Ec | reflexivity].
    + intros H. injection H as _ <-. reflexivity.
Qed.

Lemma has_comma_fraction rest ip :
  has_char ","
    (snd match rest with
         | String "." rest' => digits rest' ip 0%Z
         | _ => (ip, 0%Z, rest)
         end) = has_char "," rest.
Proof.
  destruct rest as [|a rest']; [reflexivity|].
  destruct a as [[] [] [] [] [] [] [] []]; try reflexivity.
  now rewrite has_char_digits.
Qed.

Lemma has_comma_spaces_to_ascii s : has_char "," (spaces_to_ascii s) = has_char "," s.
Proof.
  induction s as [|a s IH]; [reflexivity|]. cbn. rewrite IH. f_equal.
  destruct a as [[] [] [] [] [] [] [] []]; reflexivity.
Qed.

(** [float] accepts no text with a comma in it. *)
Lemma float_rejects_comma text :
  has_char "," text = true -> float_of_string text = None.
Proof.
  intros H. unfold float_of_string.
  rewrite <- has_comma_spaces_to_ascii in H.
  rewrite <- (has_char_strip "," _ eq_refl), <- has_comma_sign in H.
  destruct (sign_of (strip (spaces_to_ascii text))) as [neg body]. cbn [snd] in H.
  destruct (String.eqb (lowercase body) "inf" || String.eqb (lowercase body) "infinity")%bool eqn:Ei.
  { exfalso. rewrite <- has_comma_lowercase in H.
    apply orb_prop in Ei. destruct Ei as [Ei | Ei]; apply String.eqb_eq in Ei;
      rewrite Ei in H; discriminate H. }
  destruct (String.eqb (lowercase body) "nan") eqn:En.
  { exfalso. rewrite <- has_comma_lowercase in H.
    apply String.eqb_eq in En. rewrite En in H. discriminate H. }
  pose proof (has_char_digits "," eq_refl body 0%Z 0%Z) as Hd.
  destruct (digits body 0%Z 0%Z) as [[ip ni] rest]. cbn [snd] in Hd.
  pose proof (has_comma_fraction rest ip) as Hf.
  destruct (match rest with
            | String "." rest' => digits rest' ip 0%Z
            | _ => (ip, 0%Z, rest)
            end) as [[m nf] rest2].
  cbn [snd] in Hf.
  destruct (ni + nf =? 0)%Z; [reflexivity|].
  destruct (exponent rest2) as [[e rest3]|] eqn:Ex; [|reflexivity].
  apply has_comma_exponent in Ex.
  destruct rest3; [|reflexivity].
  rewrite Hf, Hd, H in Ex. discriminate Ex.
Qed.

End FloatFacts.


Section Formats.
Context {R : Resource}.

(** X11: with CPython's [float], [k2614B_iv_sweep] fails with
    [ValueError] at the first step whose response contains a comma, such
    as a response in the format of the 2400: that query is the last call
    it issues. *)
Theorem k2614B_rejects_comma_response vs f cmd reply :
  In (Query cmd (inr reply)) (issued (@k2614B_iv_sweep CPython.builtins R vs f)) ->
  has_char "," reply = true ->
  out (@k2614B_iv_sweep CPython.builtins R vs f) = Raised ValueError /\
  exists before,
    issued (@k2614B_iv_sweep CPython.builtins R vs f) = before ++ [Query cmd (inr reply)].
Proof.
  intros Hin Hc.
  assert (Hr : @reading CPython.builtins K2614B reply = Raised ValueError).
  { cbn. unfold k2614B_reading, py_float. cbn [float CPython.builtins].
    now rewrite (FloatFacts.float_rejects_comma reply Hc). }
  destruct (@bad_reply_run CPython.builtins R K2614B vs f cmd reply ValueError Hin Hr)
    as (Ho & _ & before & Hi & _).
  split; [exact Ho | now exists before].
Qed.

End Formats.

(** X12: with CPython's [float] no response is readable by both sweeps:
    a response from which [k2400_iv_sweep] gets a value makes
    [k2614B_iv_sweep] raise [ValueError], and a response from which
    [k2614B_iv_sweep] gets a value makes [k2400_iv_sweep] raise
    [IndexError]. *)
Theorem response_formats_exclusive reply :
  (forall x, @k2400_reading CPython.builtins reply = Returned x ->
             @k2614B_reading CPython.builtins reply = Raised ValueError) /\
  (forall x, @k2614B_reading CPython.builtins reply = Returned x ->
             @k2400_reading CPython.builtins reply = Raised IndexError).
Proof.
  split; intros x H.
  - apply k2400_reading_returned in H. destruct H as (xs & Hf & Hn).
    assert (Hl : 2 <= length (split "," reply)).
    { rewrite (Forall2_length Hf). destruct xs as [|a [|b l]]; try discriminate. cbn. lia. }
    apply split_fields_has in Hl.
    unfold k2614B_reading, py_float. cbn [float CPython.builtins].
    now rewrite (FloatFacts.float_rejects_comma reply Hl).
  - unfold k2614B_reading, py_float in H. cbn [float CPython.builtins] in H.
    destruct (CPython.float_of_string reply) as [y|] eqn:Ef; [|discriminate].
    assert (Hc : has_char "," reply = false).
    { destruct (has_char "," reply) eqn:E; [|reflexivity].
      rewrite (FloatFacts.float_rejects_comma reply E) in Ef. discriminate. }
    assert (Hl : length (split "," reply) < 2)
      by (rewrite (split_without _ _ Hc); cbn; lia).
    destruct (@k2400_reading_short CPython.builtins reply Hl) as [_ ->].
    cbn [float CPython.builtins]. now rewrite Ef.
Qed.


(** ** Longer sweeps *)

Section Extension.
Context {B : Builtins} {R : Resource}.

Lemma run_eta {A} (r : run A) :
  {| out := out r; issued := issued r; final := final r |} = r.
Proof. now destruct r. Qed.

Lemma bind_assoc {A C D} (c : M A) (k : A -> M C) (h : C -> M D) f :
  bind (bind c k) h f = bind c (fun a => bind (k a) h) f.
Proof.
  unfold bind. destruct (out (c f)); cbn; [|reflexivity].
  destruct (out (k a (final (c f)))); cbn; now rewrite ?app_assoc.
Qed.

Lemma bind_ext {A C} (c : M A) (k k' : A -> M C) f :
  (forall a g, k a g = k' a g) -> bind c k f = bind c k' f.
Proof. intros H. unfold bind. destruct (out (c f)); [now rewrite H | reflexivity]. Qed.

(** The loop over a concatenation is the loop over the first part followed
    by the loop over the second. *)
Lemma for_each_app {A} (xs ys : list A) (body : A -> M unit) : forall f,
  for_each (xs ++ ys) body f = bind (for_each xs body) (fun _ => for_each ys body) f.
Proof.
  induction xs as [|x xs IH]; intros f; cbn [app for_each].
  - unfold bind, ret. cbn. now rewrite run_eta.
  - rewrite bind_assoc. apply bind_ext. intros _ g. apply IH.
Qed.

Lemma bind_cong {A C} (c c' : M A) (k : A -> M C) f :
  c f = c' f -> bind c k f = bind c' k f.
Proof. intros H. unfold bind. now rewrite H. Qed.

Lemma rest_of_sweep_returned i vs f0 xs :
  out (rest_of_sweep i vs f0) = Returned xs ->
  out (for_each vs (body i) f0) = Returned tt /\
  xs = currents (final (for_each vs (body i) f0)) /\
  issued (rest_of_sweep i vs f0) =
  issued (for_each vs (body i) f0) ++ [Write (off_cmd i) None].
Proof.
  unfold rest_of_sweep. intros Ho.
  destruct (out (for_each vs (body i) f0)) as [[]|e] eqn:El.
  - destruct (bind_returned _ (fun _ => bind (write (off_cmd i)) (fun _ => get_currents)) _ _ El)
      as (Eo & Ei & _).
    rewrite Eo in Ho. rewrite Ei.
    destruct (epilogue_run i (final (for_each vs (body i) f0))) as (res & Hi & _ & Hout).
    cbn zeta in Hi, Hout. rewrite Hout in Ho. rewrite Hi.
    destruct res; [discriminate|]. injection Ho as <-. auto.
  - destruct (bind_raised _ (fun _ => bind (write (off_cmd i)) (fun _ => get_currents)) _ _ El)
      as (Eo & _).
    rewrite Eo in Ho. discriminate.
Qed.

Lemma rest_of_sweep_extension i vs1 vs2 f0 xs1 :
  currents f0 = [] ->
  out (rest_of_sweep i vs1 f0) = Returned xs1 ->
  (exists more,
      issued (rest_of_sweep i (vs1 ++ vs2) f0) =
      removelast (issued (rest_of_sweep i vs1 f0)) ++ more) /\
  (forall xs, out (rest_of_sweep i (vs1 ++ vs2) f0) = Returned xs ->
              firstn (length vs1) xs = xs1).
Proof.
  intros Hc H1. destruct (rest_of_sweep_returned i vs1 f0 xs1 H1) as (El & Hx & Hi).
  set (f1 := final (for_each vs1 (body i) f0)) in *.
  assert (E : rest_of_sweep i (vs1 ++ vs2) f0 =
              bind (for_each vs1 (body i)) (fun _ => rest_of_sweep i vs2) f0).
  { unfold rest_of_sweep.
    rewrite (bind_cong _ _ _ _ (for_each_app vs1 vs2 (body i) f0)).
    apply bind_assoc. }
  destruct (bind_returned _ (fun _ => rest_of_sweep i vs2) _ _ El) as (Eo & Ei & _).
  fold f1 in Eo, Ei. split.
  - exists (issued (rest_of_sweep i vs2 f1)).
    rewrite E, Ei, Hi. now rewrite removelast_last.
  - intros xs Hxs. rewrite E, Eo in Hxs.
    destruct (rest_of_sweep_returned i vs2 f1 xs Hxs) as (_ & -> & _).
    destruct (loop_run i vs2 f1) as (xs2 & _ & ->).
    destruct (loop_run i vs1 f0) as (ys & T & Hy). cbn zeta in T, Hy.
    rewrite El in T. fold f1 in Hy. rewrite Hc in Hy. cbn in Hy.
    destruct (loop_trace_returned i _ _ _ T) as (rs & Hl & _ & Hf).
    apply Forall2_length in Hf.
    rewrite Hx. fold f1. rewrite Hy.
    rewrite firstn_app, firstn_all2 by lia.
    replace (length vs1 - length ys) with 0 by lia. cbn. apply app_nil_r.
Qed.

(** X13: lengthening the input does not change what a sweep does for the
    set-points it already had.  If the sweep over [vs1] returns [xs1],
    then from the same state the sweep over [vs1 ++ vs2] begins with the
    same calls and results (all calls of the shorter sweep but its final
    disabling write), and whenever it returns, its first readings are
    [xs1]. *)
Theorem sweep_extension i vs1 vs2 f xs1 :
  out (iv_sweep i vs1 f) = Returned xs1 ->
  (exists more,
      issued (iv_sweep i (vs1 ++ vs2) f) =
      removelast (issued (iv_sweep i vs1 f)) ++ more) /\
  (forall xs, out (iv_sweep i (vs1 ++ vs2) f) = Returned xs ->
              firstn (length vs1) xs = xs1).
Proof.
  assert (Hk : forall vs g,
             bind (assign_currents []) (fun _ => rest_of_sweep i vs) g =
             rest_of_sweep i vs (final (assign_currents [] g))).
  { intros vs g. unfold bind at 1. cbn [assign_currents out issued final app].
    apply run_eta. }
  destruct i.
  - intros H1.
    change (iv_sweep K2400 vs1 f)
      with (bind (assign_currents []) (fun _ => rest_of_sweep K2400 vs1) f) in *.
    change (iv_sweep K2400 (vs1 ++ vs2) f)
      with (bind (assign_currents []) (fun _ => rest_of_sweep K2400 (vs1 ++ vs2)) f).
    rewrite !Hk in *.
    apply rest_of_sweep_extension; [reflexivity | exact H1].
  - intros H1.
    change (iv_sweep K2614B vs1 f)
      with (bind (write "smua.source.output = smua.OUTPUT_ON") (fun _ =>
            bind (assign_currents []) (fun _ => rest_of_sweep K2614B vs1)) f) in *.
    change (iv_sweep K2614B (vs1 ++ vs2) f)
      with (bind (write "smua.source.output = smua.OUTPUT_ON") (fun _ =>
            bind (assign_currents []) (fun _ => rest_of_sweep K2614B (vs1 ++ vs2))) f).
    destruct (write_run "smua.source.output = smua.OUTPUT_ON" f)
      as (res & st & _ & Wi & Wf & Wo).
    destruct res as [e|].
    + destruct (bind_raised _ (fun _ => bind (assign_currents [])
                  (fun _ => rest_of_sweep K2614B vs1)) _ _ Wo) as (Eo & _).
      rewrite Eo in H1. discriminate.
    + destruct (bind_returned _ (fun _ => bind (assign_currents [])
                  (fun _ => rest_of_sweep K2614B vs1)) _ _ Wo) as (Eo1 & Ei1 & _).
      destruct (bind_returned _ (fun _ => bind (assign_currents [])
                  (fun _ => rest_of_sweep K2614B (vs1 ++ vs2))) _ _ Wo) as (Eo2 & Ei2 & _).
      rewrite Eo1 in H1. rewrite Ei1, Ei2, Eo2, Wi. rewrite !Hk in *.
      set (f0 := final (assign_currents [] (final (write "smua.source.output = smua.OUTPUT_ON" f)))) in *.
      destruct (rest_of_sweep_extension K2614B vs1 vs2 f0 xs1 eq_refl H1) as ((more & Hm) & Hx).
      split; [|exact Hx].
      exists more. rewrite Hm.
      destruct (rest_of_sweep_returned K2614B vs1 f0 xs1 H1) as (_ & _ & ->).
      rewrite !removelast_last. cbn [app].
      change (Write "smua.source.output = smua.OUTPUT_ON" None
              :: issued (for_each vs1 (body K2614B) f0) ++ [Write (off_cmd K2614B) None])
        with ((Write "smua.source.output = smua.OUTPUT_ON" None
               :: issued (for_each vs1 (body K2614B) f0)) ++ [Write (off_cmd K2614B) None]).
      now rewrite removelast_last.
Qed.

End Extension.

(** ** More concrete runs *)

Module MoreRuns.
Import CPython Scenario Failures.

(** The whitespace [float] accepts around a number: the separator 28 is
    not stripped, tab and line feed are, the no-break space 160 counts as
    a space, and an underscore between digits is refused. *)
Example float_of_text_whitespace :
  float_of_string (String (ascii_of_nat 28) "1.0") = None /\
  float_of_string (String (ascii_of_nat 9) ("1.0" +s String (ascii_of_nat 10) ""))
  = Some (literal "1.0") /\
  float_of_string (String (ascii_of_nat 160) "1.0") = Some (literal "1.0") /\
  float_of_string "1_0" = None.
Proof. vm_compute. repeat split. Qed.

Lemma sweep_exception_source_witness :
  out (@iv_sweep builtins Scripted.resource K2400 two_points (Scripted.start timeout_2400))
  = Raised (VisaIOError TimeoutError) /\
  exists before last,
    issued (@iv_sweep builtins Scripted.resource K2400 two_points (Scripted.start timeout_2400))
    = before ++ [last] /\
    blames K2400 last (VisaIOError TimeoutError) /\
    forallb (succeeded K2400) before = true.
Proof.
  assert (H : out (@iv_sweep builtins Scripted.resource K2400 two_points
                     (Scripted.start timeout_2400)) = Raised (VisaIOError TimeoutError))
    by (vm_compute; reflexivity).
  split; [exact H |].
  exact (@sweep_exception_source builtins Scripted.resource K2400 two_points
           (Scripted.start timeout_2400) _ H).
Defined.

Lemma sweep_disable_failure_witness :
  In (Write "OUTP OFF" (Some CommunicationError))
     (issued (@iv_sweep builtins Scripted.resource K2400 two_points
                (Scripted.start off_fails_2400))) /\
  out (@iv_sweep builtins Scripted.resource K2400 two_points (Scripted.start off_fails_2400))
  = Raised (VisaIOError CommunicationError) /\
  length (currents (final (@iv_sweep builtins Scripted.resource K2400 two_points
                             (Scripted.start off_fails_2400)))) = 2.
Proof.
  assert (H : In (Write (off_cmd K2400) (Some CommunicationError))
                 (issued (@iv_sweep builtins Scripted.resource K2400 two_points
                            (Scripted.start off_fails_2400))))
    by (vm_compute; tauto).
  split; [exact H |].
  split.
  - exact (proj1 (@sweep_disable_failure_loses_readings builtins Scripted.resource K2400
                    two_points (Scripted.start off_fails_2400) _ H)).
  - exact (proj1 (proj2 (@sweep_disable_failure_loses_readings builtins Scripted.resource K2400
                           two_points (Scripted.start off_fails_2400) _ H))).
Defined.

Lemma k2614B_enable_failure_witness :
  In (Write "smua.source.output = smua.OUTPUT_ON" (Some TimeoutError))
     (issued (@k2614B_iv_sweep builtins Scripted.resource two_points
                (Scripted.start on_fails_2614B))) /\
  out (@k2614B_iv_sweep builtins Scripted.resource two_points (Scripted.start on_fails_2614B))
  = Raised (VisaIOError TimeoutError).
Proof.
  assert (H : In (Write "smua.source.output = smua.OUTPUT_ON" (Some TimeoutError))
                 (issued (@k2614B_iv_sweep builtins Scripted.resource two_points
                            (Scripted.start on_fails_2614B))))
    by (vm_compute; tauto).
  split; [exact H |].
  exact (proj2 (@k2614B_enable_failure_stops builtins Scripted.resource two_points
                  (Scripted.start on_fails_2614B) _ H)).
Defined.

Lemma k2614B_sweep_exceptions_witness :
  out (@k2614B_iv_sweep builtins Scripted.resource two_points (Scripted.start bad_2614B))
  = Raised ValueError /\
  (ValueError = ValueError \/ exists ce, ValueError = VisaIOError ce).
Proof.
  assert (H : out (@k2614B_iv_sweep builtins Scripted.resource two_points
                     (Scripted.start bad_2614B)) = Raised ValueError)
    by (vm_compute; reflexivity).
  split; [exact H |].
  exact (@k2614B_sweep_exceptions builtins Scripted.resource two_points
           (Scripted.start bad_2614B) _ H).
Defined.

Lemma k2614B_rejects_comma_response_witness :
  In (Query "print(smua.measure.i())" (inr "-1.0,-0.001,9.91e+37,0.0,0.0"))
     (issued (@k2614B_iv_sweep builtins Scripted.resource two_points
                (Scripted.start mixed_2614B))) /\
  has_char "," "-1.0,-0.001,9.91e+37,0.0,0.0" = true /\
  out (@k2614B_iv_sweep builtins Scripted.resource two_points (Scripted.start mixed_2614B))
  = Raised ValueError.
Proof.
  assert (H : In (Query "print(smua.measure.i())" (inr "-1.0,-0.001,9.91e+37,0.0,0.0"))
                 (issued (@k2614B_iv_sweep builtins Scripted.resource two_points
                            (Scripted.start mixed_2614B))))
    by (vm_compute; tauto).
  split; [exact H |]. split; [reflexivity |].
  exact (proj1 (@k2614B_rejects_comma_response Scripted.resource two_points
                  (Scripted.start mixed_2614B) _ _ H eq_refl)).
Defined.

Lemma sweep_extension_witness :
  out (@iv_sweep builtins Resistor.resource K2614B two_points Resistor.start)
  = Returned [literal "-0.001"; literal "-0.0005"] /\
  exists more,
    issued (@iv_sweep builtins Resistor.resource K2614B
              (two_points ++ [PyFloat (literal "0.0")]) Resistor.start) =
    removelast (issued (@iv_sweep builtins Resistor.resource K2614B two_points Resistor.start))
    ++ more.
Proof.
  assert (H : out (@iv_sweep builtins Resistor.resource K2614B two_points Resistor.start)
              = Returned [literal "-0.001"; literal "-0.0005"])
    by (vm_compute; reflexivity).
  split; [exact H |].
  exact (proj1 (@sweep_extension builtins Resistor.resource K2614B two_points
                  [PyFloat (literal "0.0")] Resistor.start _ H)).
Defined.

End MoreRuns.
